(** * bltc: job resolution and dispatch of the BLT compiler front end

    A shallow embedding of [BltcApp] (include/bltc_app.hpp, src/bltc_app.cpp):
    the option handlers of the constructor, the setup phase and job loop of
    [operator()], and the four [process_*] member functions.

    The class members and the few pieces of state that live outside the class
    (the function-local static of [get_stdin], the loop-local [Job copy]) are
    threaded through a state-and-exception monad.  Everything the program
    obtains from its collaborators (be::util, the filesystem library, the
    BLT compiler, the output stream) is read from an [Env] record. *)

From Stdlib Require Import ZArith Ascii String List Bool Lia.
From stdpp Require Import base list.
Import ListNotations.
Local Open Scope Z_scope.
Local Open Scope string_scope.
Local Open Scope list_scope.

(** ** Data *)

(** [be::S] and [be::Path]: a path is held as its native string, so that
    [Path(s)] and [p.string()] are the identity.  The status ([I8]) only ever
    holds the codes 0 to 6 and is kept in [Z]. *)
Definition S := string.
Definition Path := string.

(** [S::empty()], [Path::empty()]. *)
Definition empty (s : S) : bool :=
  match s with
  | EmptyString => true
  | String _ _ => false
  end.

Inductive SourceType := source_path | source_raw | source_console.
Inductive DestType := dest_path | dest_console.

Record Job := mkJob {
  source : S;
  dest : S;
  source_type : SourceType;
  dest_type : DestType
}.

Definition set_dest (j : Job) (d : S) : Job :=
  mkJob (source j) d (source_type j) (dest_type j).

Definition set_dest_type (j : Job) (t : DestType) : Job :=
  mkJob (source j) (dest j) (source_type j) t.

(** The exceptions the catch clauses tell apart, in the order the clauses are
    written: [fs::filesystem_error], [be::Fatal], any other [std::exception]. *)
Inductive Exn := filesystem_error | Fatal | std_exception.

Inductive Res (A : Type) :=
| Val (a : A)
| Exc (e : Exn).
Arguments Val {A} a.
Arguments Exc {A} e.

(** What [ofs.open] leaves behind.  A stream constructed with the default
    exception mask reports a failed open through its fail bit, which the
    program tests on the stream before it goes on; [OpenThrows] covers an
    exception leaving the try block all the same. *)
Inductive OpenResult := OpenGood | OpenFailed | OpenThrows (e : Exn).

(** The outcome of [blt::compile_blt] / [blt::debug_blt]:
    [TRecoverable] is a [RecoverableException<void>]. *)
Inductive TransformResult := TOk | TRecoverable | TThrows (e : Exn).

Inductive Sink := SinkFile (d : S) | SinkStdout.

(** The collaborators. *)
Record Env := mkEnv {
  parse_path : S -> Path;
  parse_multi_path : S -> list Path -> list Path;
  is_absolute : Path -> bool;
  path_append : Path -> Path -> Path;
  replace_extension : Path -> S -> Path;
  cwd : Res Path;
  fs_absolute : Path -> Res Path;
  fs_exists : Path -> Res bool;
  fs_create_directories : Path -> Res unit;
  fs_is_directory : Path -> Res bool;
  glob : S -> list Path -> Res (list Path);
  get_file_contents_string : Path -> Res S;
  ofstream_open : S -> OpenResult;
  cout_good : bool;
  compile_blt : S -> TransformResult;
  debug_blt : S -> TransformResult;
  process_stdin : Res S
}.

(** Observable steps of a run, oldest first.  [EvRaise c] marks every write
    of severity [c] to [status_]; [EvLoading] is the "Loading file" record of
    [process_path_], annotated with the destination planned at that point. *)
Inductive Event :=
| EvDescribe (query : S) (verbose with_version : bool)
| EvDescribePrologue
| EvDescribeLicense
| EvCreateDirectories (p : Path)
| EvProcessing (t : SourceType) (src : S)
| EvGlob (pattern : S) (dirs : list Path)
| EvExpanded (p : Path)
| EvNoFilesFound (p : Path)
| EvLoading (p : Path) (t : DestType) (d : S)
| EvReadStdin
| EvOpen (d : S)
| EvStdout
| EvTransform (debug : bool) (data : S) (sink : Sink)
| EvRaise (code : Z).

(** The members of [BltcApp] ([debug_mode_] to [output_path_]), then the state
    outside the class: [copy] is the local [Job copy] of the expansion loop,
    [stdin_input] the static of [get_stdin]. *)
Record State := mkState {
  debug_mode_ : bool;
  status_ : Z;
  search_paths_ : list Path;
  jobs_ : list Job;
  output_path_ : Path;
  copy : Job;
  stdin_input : option S;
  trace : list Event
}.

Definition with_status (c : Z) (s : State) : State :=
  mkState (debug_mode_ s) c (search_paths_ s) (jobs_ s) (output_path_ s)
          (copy s) (stdin_input s) (trace s).
Definition with_search_paths (l : list Path) (s : State) : State :=
  mkState (debug_mode_ s) (status_ s) l (jobs_ s) (output_path_ s)
          (copy s) (stdin_input s) (trace s).
Definition with_jobs (l : list Job) (s : State) : State :=
  mkState (debug_mode_ s) (status_ s) (search_paths_ s) l (output_path_ s)
          (copy s) (stdin_input s) (trace s).
Definition with_output_path (p : Path) (s : State) : State :=
  mkState (debug_mode_ s) (status_ s) (search_paths_ s) (jobs_ s) p
          (copy s) (stdin_input s) (trace s).
Definition with_copy (j : Job) (s : State) : State :=
  mkState (debug_mode_ s) (status_ s) (search_paths_ s) (jobs_ s)
          (output_path_ s) j (stdin_input s) (trace s).
Definition with_stdin_input (o : option S) (s : State) : State :=
  mkState (debug_mode_ s) (status_ s) (search_paths_ s) (jobs_ s)
          (output_path_ s) (copy s) o (trace s).
Definition with_event (e : Event) (s : State) : State :=
  mkState (debug_mode_ s) (status_ s) (search_paths_ s) (jobs_ s)
          (output_path_ s) (copy s) (stdin_input s) (trace s ++ [e]).

(** A [Job&]: an element of [jobs_], or the loop-local copy. *)
Inductive JobRef := stored (i : nat) | local_copy.

(** ** The monad *)

Definition M (A : Type) := State -> Res A * State.

Definition ret {A} (a : A) : M A := fun s => (Val a, s).
Definition throw {A} (e : Exn) : M A := fun s => (Exc e, s).
Definition bind {A B} (m : M A) (k : A -> M B) : M B :=
  fun s => match m s with
           | (Val a, s') => k a s'
           | (Exc e, s') => (Exc e, s')
           end.
Definition try_catch {A} (m : M A) (h : Exn -> M A) : M A :=
  fun s => match m s with
           | (Val a, s') => (Val a, s')
           | (Exc e, s') => h e s'
           end.
Definition gets {A} (f : State -> A) : M A := fun s => (Val (f s), s).
Definition modify (f : State -> State) : M unit := fun s => (Val tt, f s).
Definition lift {A} (r : Res A) : M A := fun s => (r, s).
Definition emit (e : Event) : M unit := modify (with_event e).

Declare Scope blt_scope.
Delimit Scope blt_scope with blt.
Notation "'let*' x ':=' m 'in' k" := (bind m (fun x => k))
  (at level 10, x name, m at level 100, k at level 200) : blt_scope.
Notation "m >> k" := (bind m (fun _ => k))
  (at level 90, right associativity) : blt_scope.
Local Open Scope blt_scope.

(** A range-based [for] over a vector. *)
Fixpoint for_each {A} (l : list A) (body : A -> M unit) : M unit :=
  match l with
  | [] => ret tt
  | x :: l' => body x >> for_each l' body
  end.

Definition when (b : bool) (m : M unit) : M unit := if b then m else ret tt.

(** [status_ = std::max(status_, (I8)c)] and the plain [status_ = c]. *)
Definition status_max (c : Z) : M unit :=
  modify (fun s => with_status (Z.max (status_ s) c) s) >> emit (EvRaise c).
Definition status_assign (c : Z) : M unit :=
  modify (with_status c) >> emit (EvRaise c).

(** Reading and writing through a [Job&].  A reference to an element that
    does not exist is never formed by the program; reading one yields the
    copy slot and writing one changes nothing. *)
Definition read_job (r : JobRef) : M Job :=
  gets (fun s => match r with
                 | stored i => default (copy s) (jobs_ s !! i)
                 | local_copy => copy s
                 end).
Definition write_job (r : JobRef) (j : Job) : M unit :=
  modify (fun s => match r with
                   | stored i => with_jobs (<[i := j]> (jobs_ s)) s
                   | local_copy => with_copy j s
                   end).

(** ** The program *)

Section Program.

Variable env : Env.

(** [get_stdin]: the static is initialised by the first call that returns;
    an initialisation that throws leaves it uninitialised. *)
Definition get_stdin : M S :=
  let* cached := gets stdin_input in
  match cached with
  | Some input => ret input
  | None =>
      emit EvReadStdin >>
      let* input := lift (process_stdin env) in
      modify (with_stdin_input (Some input)) >>
      ret input
  end.

(** The stream [os] points to after the first half of [process_raw_]:
    [None] is the null pointer, [Some (sink, good)] a stream and its state. *)
Definition process_raw_ (data : S) (job : JobRef) : M unit :=
  let* j := read_job job in
  let* os :=
    match dest_type j with
    | dest_path =>
        try_catch
          (emit (EvOpen (dest j)) >>
           match ofstream_open env (dest j) with
           | OpenGood => ret (Some (SinkFile (dest j), true))
           | OpenFailed => ret (Some (SinkFile (dest j), false))
           | OpenThrows e => throw e
           end)
          (fun e =>
             match e with
             | filesystem_error => status_max 5
             | Fatal => status_max 5
             | std_exception => status_max 5
             end >> ret None)
    | dest_console =>
        emit EvStdout >> ret (Some (SinkStdout, cout_good env))
    end in
  match os with
  | None => ret tt
  | Some (_, false) => ret tt
  | Some (sink, true) =>
      let* debug := gets debug_mode_ in
      emit (EvTransform debug data sink) >>
      match (if debug then debug_blt env data else compile_blt env data) with
      | TOk => ret tt
      | TRecoverable => status_max 6
      | TThrows e => throw e
      end
  end.

Definition process_non_path_ (data : S) (job : JobRef) : M unit :=
  let* j := read_job job in
  match dest_type j with
  | dest_path =>
      if empty (dest j) then
        write_job job (set_dest_type j dest_console)
      else
        let* output_path := gets output_path_ in
        let dest0 : Path := dest j in
        let dest1 :=
          if negb (is_absolute env dest0) && negb (empty output_path)
          then path_append env output_path (dest j)
          else dest0 in
        write_job job (set_dest j dest1)
  | dest_console => ret tt
  end >>
  process_raw_ data job.

Definition process_path_ (path : Path) (job : JobRef) : M unit :=
  let* data :=
    try_catch
      (let* j := read_job job in
       match dest_type j with
       | dest_path =>
           let* output_path := gets output_path_ in
           let dest1 :=
             if empty (dest j) then
               replace_extension env
                 (if empty output_path then path
                  else path_append env output_path path)
                 "lua"
             else
               let dest0 : Path := dest j in
               if negb (is_absolute env dest0) && negb (empty output_path)
               then path_append env output_path (dest j)
               else dest0 in
           write_job job (set_dest j dest1)
       | dest_console => ret tt
       end >>
       let* j' := read_job job in
       emit (EvLoading path (dest_type j') (dest j')) >>
       let* data := lift (get_file_contents_string env path) in
       ret (Some data))
      (fun e =>
         match e with
         | filesystem_error => status_max 4
         | Fatal => status_max 4
         | std_exception => status_max 4
         end >> ret None) in
  match data with
  | None => ret tt
  | Some data => process_raw_ data job
  end.

Definition process_ (job : JobRef) : M unit :=
  try_catch
    (let* j := read_job job in
     match source_type j with
     | source_path =>
         let source0 := parse_path env (source j) in
         emit (EvProcessing source_path (source j)) >>
         let* fast :=
           if is_absolute env source0 then lift (fs_exists env source0)
           else ret false in
         if fast then process_path_ source0 job
         else
           let* search_paths := gets search_paths_ in
           emit (EvGlob (source j) search_paths) >>
           let* paths := lift (glob env (source j) search_paths) in
           match paths with
           | _ :: _ =>
               when (1 <? length paths)%nat
                    (for_each paths (fun p => emit (EvExpanded p))) >>
               for_each paths (fun p =>
                 let* j0 := read_job job in
                 write_job local_copy j0 >>
                 process_path_ p local_copy)
           | [] =>
               status_max 3 >>
               emit (EvNoFilesFound source0)
           end
     | source_console =>
         emit (EvProcessing source_console (source j)) >>
         let* data := get_stdin in
         process_non_path_ data job
     | source_raw =>
         emit (EvProcessing source_raw (source j)) >>
         process_non_path_ (source j) job
     end)
    (fun e =>
       match e with
       | filesystem_error => status_assign 4
       | Fatal => status_assign 1
       | std_exception => status_assign 1
       end).

(** [operator()]: [None] from the setup block means it ran to its end (or was
    left through a catch clause), [Some c] that it returned [c]. *)
Definition operator_call : M Z :=
  let* st := gets status_ in
  if negb (Z.eqb st 0) then ret st
  else
    let* early :=
      try_catch
        (let* search_paths := gets search_paths_ in
         match search_paths with
         | [] =>
             let* w := lift (cwd env) in
             modify (with_search_paths [w])
         | _ :: _ => ret tt
         end >>
         let* output_path := gets output_path_ in
         if negb (empty output_path) then
           let* abs := lift (fs_absolute env output_path) in
           modify (with_output_path abs) >>
           let* ex := lift (fs_exists env abs) in
           when (negb ex)
                (emit (EvCreateDirectories abs) >>
                 lift (fs_create_directories env abs)) >>
           let* isdir := lift (fs_is_directory env abs) in
           if negb isdir then
             status_assign 5 >>
             let* st := gets status_ in
             ret (Some st)
           else ret None
         else ret None)
        (fun e =>
           match e with
           | filesystem_error => status_assign 1
           | Fatal => status_assign 1
           | std_exception => status_assign 1
           end >> ret None) in
    match early with
    | Some st => ret st
    | None =>
        let* st := gets status_ in
        if negb (Z.eqb st 0) then ret st
        else
          let* jobs := gets jobs_ in
          try_catch
            (for_each (seq 0 (length jobs)) (fun i => process_ (stored i)))
            (fun e =>
               match e with
               | Fatal => status_max 1
               | filesystem_error => status_max 1
               | std_exception => status_max 1
               end) >>
          gets status_
    end.

(** *** The constructor *)

(** The command line as the sequence of handler calls [proc(argc, argv)]
    makes.  [opt_help] is the short form [-?]; the long form [--help] also
    reaches the flag of the same name, which makes the help verbose.
    [rejected] stands for an argument the processor refuses with a
    [cli::ArgumentException].  The verbosity option only configures the log
    and is left out. *)
Inductive Arg :=
| opt_output (str : S)
| opt_stdout
| opt_debug
| opt_input (str : S)
| opt_stdin
| positional (str : S)
| opt_input_dir (str : S)
| opt_output_dir (str : S)
| opt_version
| opt_help (value : S)
| opt_help_long (value : S)
| rejected.

(** The locals of the constructor the handlers capture by reference. *)
Record Cli := mkCli {
  cli_dest : S;
  cli_dest_type : DestType;
  show_version : bool;
  show_help : bool;
  help_query : S;
  verbose : bool
}.

Definition push_job (j : Job) : M unit :=
  modify (fun s => with_jobs (jobs_ s ++ [j]) s).

(** After a job is pushed: [dest.clear(); dest_type = DestType::path;]. *)
Definition rebind (c : Cli) : Cli :=
  mkCli "" dest_path (show_version c) (show_help c) (help_query c) (verbose c).

(** One handler call.  The exceptions of the command line library are caught
    by the constructor only, where every clause does the same; they are
    thrown here as [std_exception]. *)
Definition handle (a : Arg) (c : Cli) : M Cli :=
  match a with
  | opt_output str =>
      ret (mkCli str dest_path (show_version c) (show_help c)
                 (help_query c) (verbose c))
  | opt_stdout =>
      ret (mkCli (cli_dest c) dest_console (show_version c) (show_help c)
                 (help_query c) (verbose c))
  | opt_debug =>
      modify (fun s => mkState true (status_ s) (search_paths_ s) (jobs_ s)
                               (output_path_ s) (copy s) (stdin_input s)
                               (trace s)) >>
      ret c
  | opt_input str =>
      let dt := if empty (cli_dest c) then dest_console else cli_dest_type c in
      push_job (mkJob str (cli_dest c) source_raw dt) >>
      ret (rebind c)
  | opt_stdin =>
      let dt := if empty (cli_dest c) then dest_console else cli_dest_type c in
      push_job (mkJob "" (cli_dest c) source_console dt) >>
      ret (rebind c)
  | positional str =>
      push_job (mkJob str (cli_dest c) source_path (cli_dest_type c)) >>
      ret (rebind c)
  | opt_input_dir str =>
      modify (fun s =>
                with_search_paths (parse_multi_path env str (search_paths_ s)) s) >>
      ret c
  | opt_output_dir str =>
      let* output_path := gets output_path_ in
      if negb (empty output_path) then throw std_exception
      else modify (with_output_path (parse_path env str)) >> ret c
  | opt_version =>
      ret (mkCli (cli_dest c) (cli_dest_type c) true (show_help c)
                 (help_query c) (verbose c))
  | opt_help value =>
      ret (mkCli (cli_dest c) (cli_dest_type c) (show_version c) true
                 value (verbose c))
  | opt_help_long value =>
      ret (mkCli (cli_dest c) (cli_dest_type c) (show_version c) true
                 value true)
  | rejected => throw std_exception
  end.

Fixpoint proc_call (args : list Arg) (c : Cli) : M Cli :=
  match args with
  | [] => ret c
  | a :: args' => let* c' := handle a c in proc_call args' c'
  end.

Definition initial_cli : Cli := mkCli "" dest_path false false "" false.

Definition initial_state : State :=
  mkState false 0 [] [] "" (mkJob "" "" source_path dest_path) None [].

(** The body of the constructor from [proc(argc, argv)] on. *)
Definition BltcApp_body (args : list Arg) : M unit :=
  try_catch
    (let* c := proc_call args initial_cli in
     let* jobs := gets jobs_ in
     let* c :=
       if negb (show_help c) && negb (show_version c)
          && match jobs with [] => true | _ :: _ => false end
       then
         status_assign 1 >>
         ret (mkCli (cli_dest c) (cli_dest_type c) true true
                    (help_query c) (verbose c))
       else ret c in
     if show_help c then
       emit (EvDescribe (help_query c) (verbose c) (show_version c))
     else if show_version c then
       emit EvDescribePrologue >> emit EvDescribeLicense
     else ret tt)
    (fun e =>
       match e with
       | filesystem_error => status_assign 2
       | Fatal => status_assign 2
       | std_exception => status_assign 2
       end).

Definition BltcApp (args : list Arg) : State :=
  snd (BltcApp_body args initial_state).

(** The whole program: construct the application, then call it. *)
Definition bltc (args : list Arg) : Res Z * State :=
  operator_call (BltcApp args).

End Program.

(** ** A concrete environment

    A POSIX flavoured instance of the collaborators over a small description
    of the disk, to run the program on explicit inputs. *)

Definition starts_with_slash (p : Path) : bool :=
  match p with
  | String c _ => Ascii.eqb c "/"%char
  | EmptyString => false
  end.

Fixpoint ends_with_slash (p : Path) : bool :=
  match p with
  | EmptyString => false
  | String c EmptyString => Ascii.eqb c "/"%char
  | String _ p' => ends_with_slash p'
  end.

Definition posix_append (a b : Path) : Path :=
  if starts_with_slash b then b
  else if empty a || ends_with_slash a then (a ++ b)%string
  else (a ++ "/" ++ b)%string.

(** On the reversed characters of a path: what precedes the last dot of the
    last component, if that component has one. *)
Fixpoint cut_extension (r : list Ascii.ascii) : option (list Ascii.ascii) :=
  match r with
  | [] => None
  | c :: r' =>
      if Ascii.eqb c "/"%char then None
      else if Ascii.eqb c "."%char then Some r'
      else cut_extension r'
  end.

Definition posix_replace_extension (p : Path) (ext : S) : Path :=
  let chars := list_ascii_of_string p in
  let stem := match cut_extension (rev chars) with
              | Some r => string_of_list_ascii (rev r)
              | None => p
              end in
  (stem ++ "." ++ ext)%string.

Definition mem (x : S) (l : list S) : bool := existsb (String.eqb x) l.

Fixpoint assoc {A} (x : S) (l : list (S * A)) : option A :=
  match l with
  | [] => None
  | (k, v) :: l' => if String.eqb x k then Some v else assoc x l'
  end.

Record Disk := mkDisk {
  disk_files : list (Path * S);
  disk_dirs : list Path;
  disk_matches : list (S * list Path);
  disk_unwritable : list S;
  disk_malformed : list S;
  disk_stdin : Res S
}.

Definition disk_env (d : Disk) : Env :=
  {| parse_path := fun s => s;
     parse_multi_path := fun s l => l ++ [s];
     is_absolute := starts_with_slash;
     path_append := posix_append;
     replace_extension := posix_replace_extension;
     cwd := Val "/work";
     fs_absolute := fun p => Val (posix_append "/work" p);
     fs_exists := fun p =>
       Val (mem p (map fst (disk_files d)) || mem p (disk_dirs d));
     fs_create_directories := fun p =>
       if mem p (disk_unwritable d) then Exc filesystem_error else Val tt;
     fs_is_directory := fun p => Val (mem p (disk_dirs d));
     glob := fun pat _ => Val (default [] (assoc pat (disk_matches d)));
     get_file_contents_string := fun p =>
       match assoc p (disk_files d) with
       | Some data => Val data
       | None => Exc filesystem_error
       end;
     ofstream_open := fun p =>
       if mem p (disk_unwritable d) then OpenFailed else OpenGood;
     cout_good := true;
     compile_blt := fun data =>
       if mem data (disk_malformed d) then TRecoverable else TOk;
     debug_blt := fun data =>
       if mem data (disk_malformed d) then TRecoverable else TOk;
     process_stdin := disk_stdin d |}.

(** The severities written to [status_], in order. *)
Fixpoint raised (t : list Event) : list Z :=
  match t with
  | [] => []
  | EvRaise c :: t' => c :: raised t'
  | _ :: t' => raised t'
  end.

(** The work items: resolved source, destination kind, planned destination. *)
Fixpoint work_items (t : list Event) : list (Path * DestType * S) :=
  match t with
  | [] => []
  | EvLoading p dt d :: t' => (p, dt, d) :: work_items t'
  | _ :: t' => work_items t'
  end.

(** The transform invocations. *)
Fixpoint transforms (t : list Event) : list (S * Sink) :=
  match t with
  | [] => []
  | EvTransform _ data sink :: t' => (data, sink) :: transforms t'
  | _ :: t' => transforms t'
  end.

Definition max_severity (l : list Z) : Z := fold_right Z.max 0 l.

(** The patterns handed to [util::glob]. *)
Fixpoint globs (t : list Event) : list S :=
  match t with
  | [] => []
  | EvGlob pat _ :: t' => pat :: globs t'
  | _ :: t' => globs t'
  end.

(** *** Planning, as a function

    The job [process_path_] leaves behind its planning block (lines 387-407)
    for the source [path], and the job [process_non_path_] leaves behind its
    own (lines 444-455). *)
Definition planned_path_job (env : Env) (output_path path : Path) (j : Job)
  : Job :=
  match dest_type j with
  | dest_path =>
      set_dest j
        (if empty (dest j) then
           replace_extension env
             (if empty output_path then path
              else path_append env output_path path) "lua"
         else if negb (is_absolute env (dest j)) && negb (empty output_path)
              then path_append env output_path (dest j)
              else dest j)
  | dest_console => j
  end.

Definition planned_non_path_job (env : Env) (output_path : Path) (j : Job)
  : Job :=
  match dest_type j with
  | dest_path =>
      if empty (dest j) then set_dest_type j dest_console
      else set_dest j
             (if negb (is_absolute env (dest j)) && negb (empty output_path)
              then path_append env output_path (dest j)
              else dest j)
  | dest_console => j
  end.

(** The job a reference designates, when it designates one. *)
Definition job_at (r : JobRef) (s : State) : option Job :=
  match r with
  | stored i => jobs_ s !! i
  | local_copy => Some (copy s)
  end.

(** The job list and the copy slot after a write through a reference. *)
Definition jobs_after_write (r : JobRef) (j : Job) (s : State) : list Job :=
  match r with
  | stored i => <[i := j]> (jobs_ s)
  | local_copy => jobs_ s
  end.
Definition copy_after_write (r : JobRef) (j : Job) (s : State) : Job :=
  match r with
  | stored _ => copy s
  | local_copy => j
  end.

(** The contract of the transform: it succeeds or reports a
    [RecoverableException]; nothing else leaves it. *)
Definition transform_contract (env : Env) : Prop :=
  forall (data : S) (e : Exn),
    compile_blt env data <> TThrows e /\ debug_blt env data <> TThrows e.

(** Two states that differ at most in the status and the trace. *)
Definition same_members (s s' : State) : Prop :=
  debug_mode_ s' = debug_mode_ s
  /\ search_paths_ s' = search_paths_ s
  /\ output_path_ s' = output_path_ s
  /\ stdin_input s' = stdin_input s.

(** Events that are neither a work item nor a glob. *)
Definition quiet (evs : list Event) : Prop :=
  work_items evs = [] /\ globs evs = [].

(** *** Disks used below *)

(** A template the compiler rejects, and a standard input that cannot be
    read. *)
Definition disk_failing_stdin : Disk :=
  mkDisk [] [] [] [] ["`"] (Exc std_exception).

(** A destination that cannot be opened for writing. *)
Definition disk_unwritable_dest : Disk :=
  mkDisk [] [] [] ["/nowhere/x.lua"] [] (Val "").

(** An existing directory, named by an absolute path. *)
Definition disk_with_directory : Disk :=
  mkDisk [] ["/tmp"] [] [] [] (Val "").

(** The working directory holds the file [a.blt]; the directory [/ro/out]
    cannot be created. *)
Definition disk_setup : Disk :=
  mkDisk [("/work/a.blt", "A")] [] [] ["/ro/out"] [] (Val "").

(** The sources of the two examples of the help text. *)
Definition disk_examples : Disk :=
  mkDisk [("foo.blt", "F"); ("bar.blt", "B")] [] [] [] [] (Val "").

(** Two templates in the working directory, matched by [*.blt], and an
    existing output directory. *)
Definition disk_two_templates : Disk :=
  mkDisk [("/work/a.blt", "A"); ("/work/b.blt", "B")] ["/work/out"]
         [("*.blt", ["/work/a.blt"; "/work/b.blt"])] [] [] (Val "").

(** The invariant of the job record as the data model words it: the
    destination and its kind are, for every stored job, what they were when
    the job was formed. *)
Definition spec_is_kept (formed final : list Job) : Prop :=
  map dest final = map dest formed
  /\ map dest_type final = map dest_type formed.

(** *** Reading the command line *)

(** The input an argument declares, if it declares one. *)
Definition input_of (a : Arg) : option (S * SourceType) :=
  match a with
  | opt_input str => Some (str, source_raw)
  | opt_stdin => Some ("", source_console)
  | positional str => Some (str, source_path)
  | _ => None
  end.

Definition declared (j : Job) : S * SourceType := (source j, source_type j).

(** Arguments that rebind the destination of the next input. *)
Definition binds (a : Arg) : bool :=
  match a with
  | opt_output _ | opt_stdout => true
  | _ => false
  end.

(** The destination kind an input gets when nothing was bound for it. *)
Definition unbound_kind (a : Arg) : DestType :=
  match a with
  | positional _ => dest_path
  | _ => dest_console
  end.

(** A job without a path source and without a destination token writes to
    standard output. *)
Definition console_by_default (j : Job) : Prop :=
  source_type j <> source_path -> dest j = "" -> dest_type j = dest_console.

(** The search directories the [--input-dir] options of a command line add
    up to, in the order of the options. *)
Definition input_dirs (env : Env) (args : list Arg) : list Path :=
  fold_left (fun dirs a => match a with
                           | opt_input_dir str => parse_multi_path env str dirs
                           | _ => dirs
                           end) args [].

(** *** More views of the trace *)

(** The jobs [process_] was entered for, as source and source kind. *)
Definition processed (t : list Event) : list (S * SourceType) :=
  omap (fun e => match e with
                 | EvProcessing k src => Some (src, k)
                 | _ => None
                 end) t.

(** The destinations handed to [ofs.open]. *)
Definition opens (t : list Event) : list S :=
  omap (fun e => match e with EvOpen d => Some d | _ => None end) t.

(** The debug flag of every transform invocation. *)
Definition debug_flags (t : list Event) : list bool :=
  omap (fun e => match e with EvTransform b _ _ => Some b | _ => None end) t.

(** The search directories of every glob. *)
Definition glob_dirs (t : list Event) : list (list Path) :=
  omap (fun e => match e with EvGlob _ dirs => Some dirs | _ => None end) t.

(** One entry per read of the standard input. *)
Definition stdin_reads (t : list Event) : list unit :=
  omap (fun e => match e with EvReadStdin => Some tt | _ => None end) t.

(** The events [process_path_], [process_non_path_] and [process_raw_] may
    add to the trace while the debug flag is [dbg]. *)
Definition item_event (dbg : bool) (e : Event) : Prop :=
  match e with
  | EvLoading _ _ _ | EvOpen _ | EvStdout | EvRaise _ => True
  | EvTransform b _ _ => b = dbg
  | _ => False
  end.

(** The events [process_] may add after its opening record and the read of
    the standard input, while the debug flag is [dbg] and the search
    directories are [dirs]. *)
Definition job_event (dbg : bool) (dirs : list Path) (e : Event) : Prop :=
  match e with
  | EvGlob _ d => d = dirs
  | EvExpanded _ | EvNoFilesFound _ => True
  | EvProcessing _ _ | EvReadStdin | EvDescribe _ _ _ | EvDescribePrologue
  | EvDescribeLicense | EvCreateDirectories _ => False
  | _ => item_event dbg e
  end.

(** [s'] is reached from [s] by adding [evs] to the trace, every raise among
    them being guarded ([std::max]), with the configuration left alone. *)
Definition advances (s s' : State) (evs : list Event) : Prop :=
  trace s' = trace s ++ evs
  /\ status_ s' = fold_left Z.max (raised evs) (status_ s)
  /\ debug_mode_ s' = debug_mode_ s
  /\ search_paths_ s' = search_paths_ s
  /\ output_path_ s' = output_path_ s.

(** No exception reaches a catch clause of [process_]: the transform keeps to
    its contract, and neither the existence test, the glob nor the capture of
    the standard input throws. *)
Definition calm (env : Env) : Prop :=
  transform_contract env
  /\ (forall p e, fs_exists env p <> Exc e)
  /\ (forall pat dirs e, glob env pat dirs <> Exc e)
  /\ (forall e, process_stdin env <> Exc e).

(** The reads [rd] of the standard input made on the way from [s] to [s']:
    none, with the captured input left as it is; or one, made because
    nothing was captured yet, after which the input is captured if and only
    if the read succeeded. *)
Definition reads_ok (env : Env) (s s' : State) (rd : list Event) : Prop :=
  (rd = [] /\ stdin_input s' = stdin_input s)
  \/ (rd = [EvReadStdin] /\ stdin_input s = None
      /\ stdin_input s' = match process_stdin env with
                          | Val d => Some d
                          | Exc _ => None
                          end).

(** What is known of the state [sm] and the result [r] reached by the body of
    [process_] (its try block) for the job [j] stored at [i]. *)
Definition body_facts (env : Env) (i : nat) (j : Job) (s : State)
    (r : Res unit) (sm : State) : Prop :=
  exists (rd evs : list Event) (j' : Job),
    advances s sm (EvProcessing (source_type j) (source j) :: rd ++ evs)
    /\ reads_ok env s sm rd
    /\ Forall (job_event (debug_mode_ s) (search_paths_ s)) evs
    /\ jobs_ sm = <[i := j']> (jobs_ s)
    /\ declared j' = declared j
    /\ (console_by_default j -> dest_type j' = dest_type j)
    /\ (calm env -> r = Val tt).

(** What one call of [process_] on the job [j] stored at [i] does to the
    state: the events it adds, the members it keeps, the only job it may
    rewrite, and, when no exception reaches its catch clauses, the status. *)
Definition job_summary (env : Env) (i : nat) (j : Job) (s s' : State) : Prop :=
  exists (rd evs : list Event) (j' : Job),
    trace s' = trace s ++ EvProcessing (source_type j) (source j) :: rd ++ evs
    /\ reads_ok env s s' rd
    /\ Forall (job_event (debug_mode_ s) (search_paths_ s)) evs
    /\ debug_mode_ s' = debug_mode_ s
    /\ search_paths_ s' = search_paths_ s
    /\ output_path_ s' = output_path_ s
    /\ jobs_ s' = <[i := j']> (jobs_ s)
    /\ declared j' = declared j
    /\ (console_by_default j -> dest_type j' = dest_type j)
    /\ (calm env -> status_ s' = fold_left Z.max (raised evs) (status_ s)).

(** The events the job loop of [operator()] may add. *)
Definition run_event (dbg : bool) (dirs : list Path) (e : Event) : Prop :=
  match e with
  | EvProcessing _ _ | EvReadStdin => True
  | _ => job_event dbg dirs e
  end.

(** The setup block of [operator()] reaches its end: the working directory is
    obtained when it is needed, and a configured output directory is made
    absolute, exists or can be created, and is a directory. *)
Definition setup_passes (env : Env) (s : State) : Prop :=
  (search_paths_ s = [] -> exists w, cwd env = Val w)
  /\ (empty (output_path_ s) = false ->
      exists abs ex,
        fs_absolute env (output_path_ s) = Val abs
        /\ fs_exists env abs = Val ex
        /\ (ex = false -> fs_create_directories env abs = Val tt)
        /\ fs_is_directory env abs = Val true).

(** The state the job loop of [operator()] ends in when started in [s1]. *)
Definition loop_end (env : Env) (s1 : State) : State :=
  snd (for_each (seq 0 (length (jobs_ s1)))
                (fun i => process_ env (stored i)) s1).

(** [operator()] gets through its setup block, in a state [s1] that differs
    from [s] by the defaulted search path, the absolute output path and
    possibly the record of a created directory, and returns what the job
    loop leaves. *)
Definition runs (env : Env) (s : State) : Prop :=
  exists (s1 : State) (pre : list Event),
    operator_call env s = (Val (status_ (loop_end env s1)), loop_end env s1)
    /\ jobs_ s1 = jobs_ s
    /\ status_ s1 = status_ s
    /\ debug_mode_ s1 = debug_mode_ s
    /\ stdin_input s1 = stdin_input s
    /\ trace s1 = trace s ++ pre
    /\ (pre = [] \/ exists p, pre = [EvCreateDirectories p])
    /\ match search_paths_ s with
       | [] => exists w, cwd env = Val w /\ search_paths_ s1 = [w]
       | _ :: _ => search_paths_ s1 = search_paths_ s
       end.

(** [operator()] leaves its setup block early, with the code [c]. *)
Definition stops (env : Env) (s : State) (c : Z) : Prop :=
  exists (s' : State) (pre : list Event),
    operator_call env s = (Val c, s')
    /\ status_ s' = c
    /\ jobs_ s' = jobs_ s
    /\ trace s' = trace s ++ pre ++ [EvRaise c]
    /\ (pre = [] \/ exists p, pre = [EvCreateDirectories p]).

(** The search directories a run works with: those given on the command
    line, or the working directory when none was given. *)
Definition effective_dirs (env : Env) (s : State) : list Path :=
  match search_paths_ s with
  | [] => match cwd env with
          | Val w => [w]
          | Exc _ => []
          end
  | _ :: _ => search_paths_ s
  end.

(** A standard input that can be read, and nothing on the disk. *)
Definition disk_piped_input : Disk :=
  mkDisk [] [] [] [] [] (Val "piped").

(** * Properties *)

Ltac unfold_monad :=
  unfold status_max, status_assign, emit, when, read_job, write_job,
    push_job, bind, ret, throw, try_catch, gets, modify, lift in *.

(** ** Status aggregation *)

(** The guarded form of a raise never lowers the status. *)
Lemma status_max_ge (c : Z) (s : State) :
  status_ s <= status_ (snd (status_max c s))
  /\ c <= status_ (snd (status_max c s)).
Proof. unfold_monad; simpl. lia. Qed.

(** The plain assignment used by the catch clauses of [process_] stores the
    new code whatever the status was. *)
Lemma status_assign_eq (c : Z) (s : State) :
  status_ (snd (status_assign c s)) = c.
Proof. reflexivity. Qed.

(** C1, evaluated where it fails: the first job raises the status to 6
    through the guarded raise; the second job leaves [process_] through its
    catch clause for [std::exception], whose plain assignment lowers the status
    to 1.  The run exits with 1 although the highest severity raised is 6. *)
Theorem C1_process_catch_lowers_status :
  let run := bltc (disk_env disk_failing_stdin) [opt_input "`"; opt_stdin] in
  raised (trace (snd run)) = [6; 1]
  /\ fst run = Val 1
  /\ max_severity (raised (trace (snd run))) = 6.
Proof. vm_compute. repeat split; reflexivity. Qed.

(** ** Opening the destination *)

Section Raw.

Variable env : Env.

(** A destination that cannot be opened leaves the stream in a failed state:
    [process_raw_] returns before the transform and without a raise. *)
Lemma process_raw__open_failed (data : S) (i : nat) (j : Job) (s : State) :
  jobs_ s !! i = Some j ->
  dest_type j = dest_path ->
  ofstream_open env (dest j) = OpenFailed ->
  process_raw_ env data (stored i) s = (Val tt, with_event (EvOpen (dest j)) s).
Proof.
  intros Hj Ht Ho. unfold process_raw_. unfold_monad. simpl.
  rewrite Hj. simpl. rewrite Ht. simpl. rewrite Ho. reflexivity.
Qed.

(** An exception thrown while the destination is opened is caught, raises 5
    and also skips the transform. *)
Lemma process_raw__open_throws (data : S) (i : nat) (j : Job) (s : State)
    (e : Exn) :
  jobs_ s !! i = Some j ->
  dest_type j = dest_path ->
  ofstream_open env (dest j) = OpenThrows e ->
  process_raw_ env data (stored i) s
  = (Val tt,
     with_event (EvRaise 5)
       (with_status (Z.max (status_ s) 5) (with_event (EvOpen (dest j)) s))).
Proof.
  intros Hj Ht Ho. unfold process_raw_. unfold_monad. simpl.
  rewrite Hj. simpl. rewrite Ht. simpl. rewrite Ho. destruct e; reflexivity.
Qed.

End Raw.

(** C3, evaluated where it fails: the destination [/nowhere/x.lua] cannot be
    opened.  The item is abandoned and the transform is not invoked, but no
    severity is raised: the run exits with 0, not with 5. *)
Theorem C3_failed_open_raises_nothing :
  let run := bltc (disk_env disk_unwritable_dest)
                  [opt_output "/nowhere/x.lua"; opt_input "t"] in
  trace (snd run) = [EvProcessing source_raw "t"; EvOpen "/nowhere/x.lua"]
  /\ transforms (trace (snd run)) = []
  /\ raised (trace (snd run)) = []
  /\ fst run = Val 0.
Proof. vm_compute. repeat split; reflexivity. Qed.

(** ** Resolution of a path job *)

(** C5, evaluated where it fails: [/tmp] is an absolute path to an existing
    directory.  The fast path of [process_] tests existence only, so the
    directory is handed to [process_path_] as the resolved source without the
    glob being consulted; the run then fails reading it (4) instead of
    reporting that nothing matched (3). *)
Theorem C5_fast_path_accepts_directory :
  let env := disk_env disk_with_directory in
  let run := bltc env [positional "/tmp"] in
  fs_is_directory env "/tmp" = Val true
  /\ work_items (trace (snd run)) = [("/tmp", dest_path, "/tmp.lua")]
  /\ globs (trace (snd run)) = []
  /\ fst run = Val 4.
Proof. vm_compute. repeat split; reflexivity. Qed.

Section Jobs.

Variable env : Env.

(** No exception leaves [process_]: its catch clauses cover every case. *)
Lemma process__returns (job : JobRef) (s : State) :
  fst (process_ env job s) = Val tt.
Proof.
  unfold process_, try_catch.
  destruct (bind _ _ s) as [[[]|e] s']; [reflexivity|].
  destruct e; reflexivity.
Qed.

(** So the loop of [operator()] reaches every job. *)
Lemma for_each_process_ (i : nat) (l : list nat) (s : State) :
  for_each (i :: l) (fun i => process_ env (stored i)) s
  = for_each l (fun i => process_ env (stored i))
             (snd (process_ env (stored i) s)).
Proof.
  simpl. unfold bind at 1.
  pose proof (process__returns (stored i) s) as H.
  destruct (process_ env (stored i) s) as [r s']. simpl in *. now subst r.
Qed.

(** A pattern without a match raises 3 through the guarded raise and
    produces no work item. *)
Lemma process__no_match (i : nat) (j : Job) (s : State) :
  jobs_ s !! i = Some j ->
  source_type j = source_path ->
  is_absolute env (parse_path env (source j)) = false
  \/ fs_exists env (parse_path env (source j)) = Val false ->
  glob env (source j) (search_paths_ s) = Val [] ->
  process_ env (stored i) s
  = (Val tt,
     with_event (EvNoFilesFound (parse_path env (source j)))
       (with_event (EvRaise 3)
          (with_status (Z.max (status_ s) 3)
             (with_event (EvGlob (source j) (search_paths_ s))
                (with_event (EvProcessing source_path (source j)) s))))).
Proof.
  intros Hj Ht Hfast Hg. unfold process_. unfold_monad. simpl.
  rewrite Hj. simpl. rewrite Ht.
  destruct Hfast as [Ha | He].
  - rewrite Ha. simpl. rewrite Hg. reflexivity.
  - destruct (is_absolute env _); simpl; [rewrite He|]; simpl;
      rewrite Hg; reflexivity.
Qed.

End Jobs.

(** C6, evaluated where it fails: the pattern matches nothing, which raises 3
    and produces no work item, and the next job is still processed.  That job
    leaves [process_] through the catch clause for [std::exception], which
    assigns 1: the run exits with 1, below 3. *)
Theorem C6_final_status_below_no_input_match :
  let run := bltc (disk_env disk_failing_stdin)
                  [positional "none*"; opt_stdin] in
  trace (snd run)
  = [EvProcessing source_path "none*"; EvGlob "none*" ["/work"]; EvRaise 3;
     EvNoFilesFound "none*"; EvProcessing source_console ""; EvReadStdin;
     EvRaise 1]
  /\ work_items (trace (snd run)) = []
  /\ fst run = Val 1.
Proof. vm_compute. repeat split; reflexivity. Qed.

(** ** Start-up *)

(** C9: when the command line is accepted, asks for neither help nor version
    and declares no job, the constructor sets the status to 1 and prints the
    help together with the version information; [operator()] then returns 1 at
    once, so the trace ends with the help output and no job is processed. *)
Theorem C9_no_jobs_shows_help_and_exits_1 (env : Env) (args : list Arg)
    (c : Cli) (s : State) :
  proc_call env args initial_cli initial_state = (Val c, s) ->
  show_help c = false ->
  show_version c = false ->
  jobs_ s = [] ->
  bltc env args
  = (Val 1,
     with_event (EvDescribe (help_query c) (verbose c) true)
       (with_event (EvRaise 1) (with_status 1 s))).
Proof.
  intros Hp Hh Hv Hj. unfold bltc, BltcApp, BltcApp_body.
  unfold try_catch, bind at 1. rewrite Hp.
  unfold_monad. simpl. rewrite Hh, Hv, Hj. simpl.
  unfold operator_call. unfold_monad. reflexivity.
Qed.

Lemma C9_no_jobs_shows_help_and_exits_1_witness :
  bltc (disk_env disk_setup) [opt_debug; opt_input_dir "src"]
  = (Val 1,
     mkState true 1 ["src"] [] "" (mkJob "" "" source_path dest_path) None
             [EvRaise 1; EvDescribe "" false true]).
Proof.
  apply (C9_no_jobs_shows_help_and_exits_1 (disk_env disk_setup)
           [opt_debug; opt_input_dir "src"] initial_cli
           (mkState true 0 ["src"] [] "" (mkJob "" "" source_path dest_path)
                    None []));
    reflexivity.
Defined.

(** C10: when the setup phase is entered (status 0) with an output directory
    configured and reaches the directory checks (the working directory, if it
    is needed, and the absolute form [abs] of the output directory are
    obtained): if [abs] exists and is not a directory the run returns 5; if
    [abs] does not exist and creating it throws a filesystem error the run
    returns 1.  Either way the job list is untouched and the trace gains no
    job event. *)
Theorem C10_output_directory_setup (env : Env) (s : State) (abs : Path) :
  status_ s = 0 ->
  empty (output_path_ s) = false ->
  (search_paths_ s = [] -> exists w, cwd env = Val w) ->
  fs_absolute env (output_path_ s) = Val abs ->
  (fs_exists env abs = Val true ->
   fs_is_directory env abs = Val false ->
   fst (operator_call env s) = Val 5
   /\ trace (snd (operator_call env s)) = trace s ++ [EvRaise 5]
   /\ jobs_ (snd (operator_call env s)) = jobs_ s)
  /\
  (fs_exists env abs = Val false ->
   fs_create_directories env abs = Exc filesystem_error ->
   fst (operator_call env s) = Val 1
   /\ trace (snd (operator_call env s))
      = trace s ++ [EvCreateDirectories abs; EvRaise 1]
   /\ jobs_ (snd (operator_call env s)) = jobs_ s).
Proof.
  intros Hs He Hw Ha.
  split; intros Hex Hfs; unfold operator_call; unfold_monad; simpl;
    rewrite Hs; simpl;
    (destruct (search_paths_ s) as [|p l];
     [destruct (Hw eq_refl) as [w Hcwd]; rewrite Hcwd|]);
    simpl; rewrite He; simpl; rewrite Ha; simpl; rewrite Hex; simpl;
    rewrite Hfs; simpl; repeat split; try reflexivity;
    rewrite <- List.app_assoc; reflexivity.
Qed.

Lemma C10_output_directory_setup_witness :
  let env := disk_env disk_setup in
  let s1 := BltcApp env [opt_output_dir "a.blt"; opt_input "t"] in
  let s2 := BltcApp env [opt_output_dir "/ro/out"; opt_input "t"] in
  (fst (operator_call env s1) = Val 5
   /\ trace (snd (operator_call env s1)) = trace s1 ++ [EvRaise 5]
   /\ jobs_ (snd (operator_call env s1)) = jobs_ s1)
  /\
  (fst (operator_call env s2) = Val 1
   /\ trace (snd (operator_call env s2))
      = trace s2 ++ [EvCreateDirectories "/ro/out"; EvRaise 1]
   /\ jobs_ (snd (operator_call env s2)) = jobs_ s2).
Proof.
  intros env s1 s2.
  assert (Hcwd : forall s : State,
             search_paths_ s = [] -> exists w, cwd env = Val w).
  { intros s _. exists "/work". reflexivity. }
  split.
  - apply (proj1 (C10_output_directory_setup env s1 "/work/a.blt"
                    eq_refl eq_refl (Hcwd s1) eq_refl)); reflexivity.
  - apply (proj2 (C10_output_directory_setup env s2 "/ro/out"
                    eq_refl eq_refl (Hcwd s2) eq_refl)); reflexivity.
Defined.

(** ** Planning and execution of one work item *)

Lemma work_items_app (a b : list Event) :
  work_items (a ++ b) = work_items a ++ work_items b.
Proof.
  induction a as [|e a IH]; [reflexivity|].
  destruct e; simpl; rewrite ?IH; reflexivity.
Qed.

Lemma globs_app (a b : list Event) : globs (a ++ b) = globs a ++ globs b.
Proof.
  induction a as [|e a IH]; [reflexivity|].
  destruct e; simpl; rewrite ?IH; reflexivity.
Qed.

(** Closes [trace s' = trace s ++ ?evs] goals once [trace s'] is explicit. *)
Ltac trace_ext :=
  simpl; rewrite <- ?List.app_assoc; simpl;
  first [ reflexivity | symmetry; apply List.app_nil_r ].

Section WorkItem.

Variable env : Env.

(** [process_raw_] changes nothing but the status and the trace, to which it
    adds neither a work item nor a glob; under the contract of the transform
    it returns normally. *)
Lemma process_raw__frame (data : S) (job : JobRef) (s : State)
    (r : Res unit) (s' : State) :
  process_raw_ env data job s = (r, s') ->
  jobs_ s' = jobs_ s /\ copy s' = copy s /\ same_members s s'
  /\ (exists evs, trace s' = trace s ++ evs /\ quiet evs)
  /\ (transform_contract env -> r = Val tt).
Proof.
  unfold process_raw_, same_members, quiet, transform_contract.
  unfold_monad. simpl. intros H.
  repeat case_match; simplify_eq; simpl; repeat split; try reflexivity;
    try (eexists; split; [trace_ext | split; reflexivity]);
    intros Hc; exfalso;
    match goal with
    | Hd : debug_blt env ?d = TThrows ?e |- _ => apply (proj2 (Hc d e) Hd)
    | Hd : compile_blt env ?d = TThrows ?e |- _ => apply (proj1 (Hc d e) Hd)
    end.
Qed.

(** After the planning block: the file is read and processed, or the read
    fails and raises 4. *)
Ltac finish_item H Ht :=
  lazymatch type of H with
  | process_raw_ _ _ _ _ = _ =>
      let evs := fresh "evs" in
      let Htr := fresh "Htr" in
      let Hq := fresh "Hq" in
      destruct (process_raw__frame _ _ _ _ _ H)
        as (? & ? & (? & ? & ? & ?) & (evs & Htr & Hq) & ?);
      simpl in *; rewrite ?Ht; repeat split; try assumption;
      exists evs; split; [rewrite Htr; trace_ext | exact Hq]
  | (Val tt, _) = _ =>
      injection H as <- <-; simpl; rewrite ?Ht; repeat split;
      try reflexivity;
      exists [EvRaise 4]; split; [trace_ext | split; reflexivity]
  end.

(** [process_path_] plans the destination into the referenced job, records
    one work item and then reads and processes the file. *)
Lemma process_path__spec (path : Path) (job : JobRef) (j : Job) (s : State)
    (r : Res unit) (s' : State) :
  job_at job s = Some j ->
  process_path_ env path job s = (r, s') ->
  let j' := planned_path_job env (output_path_ s) path j in
  jobs_ s' = jobs_after_write job j' s
  /\ copy s' = copy_after_write job j' s
  /\ same_members s s'
  /\ (exists evs,
        trace s' = trace s ++ EvLoading path (dest_type j') (dest j') :: evs
        /\ quiet evs)
  /\ (transform_contract env -> r = Val tt).
Proof.
  intros Hj H. unfold planned_path_job.
  unfold process_path_ in H. unfold_monad.
  destruct job as [i|]; simpl in Hj, H.
  - rewrite Hj in H. simpl in H. destruct (dest_type j) eqn:Ht; simpl in H.
    + rewrite list_lookup_insert_eq in H by (eapply lookup_lt_Some; eauto).
      simpl in H. rewrite Ht in H.
      destruct (get_file_contents_string env path) as [data|[]]; simpl in H.
      all: finish_item H Ht.
    + rewrite Hj in H. simpl in H. rewrite Ht in H.
      simpl. rewrite (list_insert_id _ _ _ Hj).
      destruct (get_file_contents_string env path) as [data|[]]; simpl in H;
        finish_item H Ht.
  - injection Hj as <-.
    destruct (dest_type (copy s)) eqn:Ht; simpl in H; rewrite ?Ht in H;
      destruct (get_file_contents_string env path) as [data|[]]; simpl in H;
      finish_item H Ht.
Qed.

(** [process_non_path_] plans into the referenced job and processes the
    data; it records no work item. *)
Lemma process_non_path__spec (data : S) (job : JobRef) (j : Job) (s : State)
    (r : Res unit) (s' : State) :
  job_at job s = Some j ->
  process_non_path_ env data job s = (r, s') ->
  let j' := planned_non_path_job env (output_path_ s) j in
  jobs_ s' = jobs_after_write job j' s
  /\ copy s' = copy_after_write job j' s
  /\ same_members s s'
  /\ (exists evs, trace s' = trace s ++ evs /\ quiet evs)
  /\ (transform_contract env -> r = Val tt).
Proof.
  intros Hj H. unfold planned_non_path_job.
  unfold process_non_path_ in H. unfold_monad.
  destruct job as [i|]; simpl in Hj, H.
  - rewrite Hj in H. simpl in H.
    destruct (dest_type j) eqn:Ht; simpl in H;
      [destruct (empty (dest j)); simpl in H
      | simpl; rewrite (list_insert_id _ _ _ Hj)];
      destruct (process_raw__frame _ _ _ _ _ H)
        as (? & ? & (? & ? & ? & ?) & ? & ?);
      simpl in *; repeat split; assumption.
  - injection Hj as <-.
    destruct (dest_type (copy s)) eqn:Ht; simpl in H;
      [destruct (empty (dest (copy s))); simpl in H |];
      destruct (process_raw__frame _ _ _ _ _ H)
        as (? & ? & (? & ? & ? & ?) & ? & ?);
      simpl in *; repeat split; assumption.
Qed.

End WorkItem.

Lemma empty_true (x : S) : empty x = true <-> x = "".
Proof. destruct x; simpl; split; congruence. Qed.

Lemma empty_false (x : S) : empty x = false <-> x <> "".
Proof. destruct x; simpl; split; congruence. Qed.

Lemma job_at_written (r : JobRef) (j j' : Job) (s s' : State) :
  job_at r s = Some j ->
  jobs_ s' = jobs_after_write r j' s ->
  copy s' = copy_after_write r j' s ->
  job_at r s' = Some j'.
Proof.
  destruct r as [i|]; simpl; intros Hj Hjobs Hcopy.
  - rewrite Hjobs. apply list_lookup_insert_eq.
    eapply lookup_lt_Some; eassumption.
  - now rewrite Hcopy.
Qed.

(** C8: a path job with destination kind Path and an empty destination token.
    Without an output directory the planned destination is the source path
    with its extension replaced by [lua]; with an output directory it is the
    output directory joined with the source path, extension replaced.  The
    plan is what the work item carries and what the referenced job holds
    afterwards. *)
Theorem C8_default_destination (env : Env) (path : Path) (job : JobRef)
    (j : Job) (s : State) :
  job_at job s = Some j ->
  dest_type j = dest_path ->
  dest j = "" ->
  let s' := snd (process_path_ env path job s) in
  (output_path_ s = "" ->
   let planned := replace_extension env path "lua" in
   work_items (trace s') = work_items (trace s) ++ [(path, dest_path, planned)]
   /\ job_at job s' = Some (set_dest j planned))
  /\
  (output_path_ s <> "" ->
   let planned :=
     replace_extension env (path_append env (output_path_ s) path) "lua" in
   work_items (trace s') = work_items (trace s) ++ [(path, dest_path, planned)]
   /\ job_at job s' = Some (set_dest j planned)).
Proof.
  intros Hj Ht Hd s'.
  destruct (process_path_ env path job s) as [r s0] eqn:H. subst s'. simpl.
  destruct (process_path__spec env path job j s r s0 Hj H)
    as (Hjobs & Hcopy & _ & (evs & Htr & Hw & _) & _).
  unfold planned_path_job in *. rewrite Ht, Hd in *. simpl in *.
  split; intros Ho.
  - rewrite Ho in *. simpl in *. split.
    + rewrite Htr, work_items_app. simpl. rewrite Hw, ?Ht. reflexivity.
    + eapply job_at_written; eassumption.
  - apply empty_false in Ho. rewrite Ho in *. split.
    + rewrite Htr, work_items_app. simpl. rewrite Hw, ?Ht. reflexivity.
    + eapply job_at_written; eassumption.
Qed.

Lemma C8_default_destination_witness :
  let env := disk_env disk_examples in
  let foo := mkJob "foo.blt" "" source_path dest_path in
  let bar := mkJob "bar.blt" "" source_path dest_path in
  let s1 := with_jobs [foo] initial_state in
  let s2 := with_output_path "out/" (with_jobs [bar] initial_state) in
  (work_items (trace (snd (process_path_ env "foo.blt" (stored 0) s1)))
   = [("foo.blt", dest_path, "foo.lua")]
   /\ job_at (stored 0) (snd (process_path_ env "foo.blt" (stored 0) s1))
      = Some (mkJob "foo.blt" "foo.lua" source_path dest_path))
  /\
  (work_items (trace (snd (process_path_ env "bar.blt" (stored 0) s2)))
   = [("bar.blt", dest_path, "out/bar.lua")]
   /\ job_at (stored 0) (snd (process_path_ env "bar.blt" (stored 0) s2))
      = Some (mkJob "bar.blt" "out/bar.lua" source_path dest_path)).
Proof.
  intros env foo bar s1 s2. split.
  - apply (proj1 (C8_default_destination env "foo.blt" (stored 0) foo s1
                    eq_refl eq_refl eq_refl)).
    reflexivity.
  - apply (proj2 (C8_default_destination env "bar.blt" (stored 0) bar s2
                    eq_refl eq_refl eq_refl)).
    discriminate.
Defined.

(** C4: a path job whose token parses to an absolute path that exists.
    Whatever the search directories [dirs] are, [process_] hands exactly that
    one path to [process_path_] (one work item, for the path itself) and the
    glob is not consulted. *)
Theorem C4_absolute_existing_path (env : Env) (i : nat) (j : Job) (s : State)
    (dirs : list Path) :
  jobs_ s !! i = Some j ->
  source_type j = source_path ->
  is_absolute env (parse_path env (source j)) = true ->
  fs_exists env (parse_path env (source j)) = Val true ->
  let p := parse_path env (source j) in
  let planned := planned_path_job env (output_path_ s) p j in
  let s' := snd (process_ env (stored i) (with_search_paths dirs s)) in
  work_items (trace s')
  = work_items (trace s) ++ [(p, dest_type planned, dest planned)]
  /\ globs (trace s') = globs (trace s).
Proof.
  intros Hj Ht Ha He p planned s'. subst s' p.
  unfold process_. unfold_monad. simpl. rewrite Hj. simpl. rewrite Ht.
  rewrite Ha, He. simpl.
  destruct (process_path_ env _ _ _) as [r s1] eqn:H.
  apply process_path__spec with (j := j) in H; [|exact Hj].
  destruct H as (_ & _ & _ & (evs & Htr & Hw & Hg) & _). simpl in Htr.
  assert (Hs1 : work_items (trace s1)
                = work_items (trace s)
                  ++ [(parse_path env (source j), dest_type planned,
                       dest planned)]
                /\ globs (trace s1) = globs (trace s)).
  { rewrite Htr, !work_items_app, !globs_app. simpl.
    rewrite Hw, Hg, !List.app_nil_r. split; reflexivity. }
  destruct r as [[]|[]]; simpl; rewrite ?work_items_app, ?globs_app; simpl;
    rewrite ?List.app_nil_r; exact Hs1.
Qed.

Lemma C4_absolute_existing_path_witness :
  let env := disk_env disk_setup in
  let s := BltcApp env [positional "/work/a.blt"] in
  let s' := snd (process_ env (stored 0)
                          (with_search_paths ["/elsewhere"; "/lib"] s)) in
  work_items (trace s') = [("/work/a.blt", dest_path, "/work/a.lua")]
  /\ globs (trace s') = [].
Proof.
  intros env s.
  apply (C4_absolute_existing_path env 0
           (mkJob "/work/a.blt" "" source_path dest_path) s
           ["/elsewhere"; "/lib"] eq_refl eq_refl eq_refl eq_refl).
Defined.

(** ** Fan-out *)

Section FanOut.

Variable env : Env.

Lemma for_each_expanded (paths : list Path) (s : State) :
  exists s',
    for_each paths (fun p => emit (EvExpanded p)) s = (Val tt, s')
    /\ jobs_ s' = jobs_ s /\ copy s' = copy s /\ same_members s s'
    /\ status_ s' = status_ s
    /\ exists evs, trace s' = trace s ++ evs /\ quiet evs.
Proof.
  revert s. induction paths as [|p paths IH]; intros s.
  - exists s. unfold same_members, quiet. repeat split.
    exists []. repeat split. symmetry. apply List.app_nil_r.
  - destruct (IH (with_event (EvExpanded p) s))
      as (s' & Hrun & Hjobs & Hcopy & (? & ? & ? & ?) & Hst & evs & Htr & Hw & Hg).
    exists s'. simpl. unfold_monad. simpl. simpl in Hrun. rewrite Hrun.
    simpl in *. unfold same_members, quiet. repeat split; try assumption.
    exists (EvExpanded p :: evs). rewrite Htr. repeat split; try assumption.
    trace_ext.
Qed.

(** The expansion loop of [process_]: every match is planned on a fresh copy
    of the job, so the job list is never written; while no exception escapes
    the transform, every match yields its work item, in order. *)
Lemma expansion_loop (i : nat) (j : Job) (paths : list Path) (s : State)
    (r : Res unit) (s' : State) :
  jobs_ s !! i = Some j ->
  for_each paths
    (fun p => let* j0 := read_job (stored i) in
              write_job local_copy j0 >> process_path_ env p local_copy) s
  = (r, s') ->
  jobs_ s' = jobs_ s /\ same_members s s'
  /\ globs (trace s') = globs (trace s)
  /\ (transform_contract env ->
      r = Val tt
      /\ work_items (trace s')
         = work_items (trace s)
           ++ map (fun p =>
                     let j' := planned_path_job env (output_path_ s) p j in
                     (p, dest_type j', dest j')) paths).
Proof.
  revert s. induction paths as [|p paths IH]; intros s Hj H.
  - injection H as <- <-. unfold same_members. repeat split.
    simpl. symmetry. apply List.app_nil_r.
  - set (body := fun p : Path => _) in *.
    assert (Hb : body p s = process_path_ env p local_copy (with_copy j s)).
    { unfold body. unfold_monad. simpl. rewrite Hj. reflexivity. }
    simpl in H. unfold bind at 1 in H. rewrite Hb in H. clear Hb.
    destruct (process_path_ env p local_copy (with_copy j s))
      as [r1 s1] eqn:H1.
    destruct (process_path__spec env p local_copy j (with_copy j s) r1 s1
                eq_refl H1)
      as (Hjobs & _ & (Hd & Hsp & Hop & Hsi) & (evs & Htr & Hw & Hg) & Hr).
    simpl in *.
    assert (Hg1 : globs (trace s1) = globs (trace s)).
    { rewrite Htr, globs_app. simpl. rewrite Hg. apply List.app_nil_r. }
    destruct r1 as [[]|e].
    + assert (Hj1 : jobs_ s1 !! i = Some j) by (rewrite Hjobs; exact Hj).
      destruct (IH s1 Hj1 H) as (Hjobs' & (? & ? & ? & ?) & Hg' & Hc).
      split; [congruence|]. split; [unfold same_members; intuition congruence|].
      split; [congruence|]. intros Hct. destruct (Hc Hct) as [Hval Hitems].
      split; [exact Hval|].
      rewrite Hitems, Htr, work_items_app. simpl.
      rewrite Hw, Hop, <- List.app_assoc. reflexivity.
    + injection H as <- <-.
      split; [assumption|]. split; [unfold same_members; intuition|].
      split; [assumption|]. intros Hct. specialize (Hr Hct). discriminate.
Qed.

(** The branch of [process_] taken when the glob returns matches. *)
Lemma matches_branch (i : nat) (j : Job) (paths : list Path) (s : State)
    (r : Res unit) (s' : State) :
  jobs_ s !! i = Some j ->
  (when (1 <? length paths)%nat
        (for_each paths (fun p => emit (EvExpanded p))) >>
   for_each paths
     (fun p => let* j0 := read_job (stored i) in
               write_job local_copy j0 >> process_path_ env p local_copy)) s
  = (r, s') ->
  jobs_ s' = jobs_ s
  /\ globs (trace s') = globs (trace s)
  /\ (transform_contract env ->
      r = Val tt
      /\ work_items (trace s')
         = work_items (trace s)
           ++ map (fun p =>
                     let j' := planned_path_job env (output_path_ s) p j in
                     (p, dest_type j', dest j')) paths).
Proof.
  intros Hj H. unfold bind at 1 in H. unfold when in H.
  destruct (1 <? length paths)%nat.
  - destruct (for_each_expanded paths s)
      as (s1 & Hrun & Hjobs & _ & (_ & _ & Hop & _) & _ & evs & Htr & Hw & Hg).
    rewrite Hrun in H.
    assert (Hj1 : jobs_ s1 !! i = Some j) by (rewrite Hjobs; exact Hj).
    destruct (expansion_loop i j paths s1 r s' Hj1 H)
      as (Hjobs' & _ & Hg' & Hc).
    split; [congruence|]. split.
    + rewrite Hg', Htr, globs_app, Hg. apply List.app_nil_r.
    + intros Hct. destruct (Hc Hct) as [Hval Hitems]. split; [exact Hval|].
      rewrite Hitems, Htr, work_items_app, Hw, Hop, List.app_nil_r.
      reflexivity.
  - destruct (expansion_loop i j paths s r s' Hj H) as (Hjobs' & _ & Hg' & Hc).
    repeat split; try assumption; apply Hc; assumption.
Qed.

(** A path job that does not take the fast path never writes the job list,
    whatever the glob returns and however the processing of the matches
    ends. *)
Lemma process__expansion_keeps_jobs (i : nat) (j : Job) (s : State) :
  jobs_ s !! i = Some j ->
  source_type j = source_path ->
  ~ (is_absolute env (parse_path env (source j)) = true
     /\ fs_exists env (parse_path env (source j)) = Val true) ->
  jobs_ (snd (process_ env (stored i) s)) = jobs_ s.
Proof.
  intros Hj Ht Hfast. unfold process_.
  unfold try_catch, bind at 1, read_job, gets. simpl. rewrite Hj. simpl.
  rewrite Ht. unfold bind at 1, emit, modify.
  unfold bind at 1.
  assert (Hnot : forall st,
             (if is_absolute env (parse_path env (source j))
              then lift (fs_exists env (parse_path env (source j)))
              else ret false) st = (Val false, st)
             \/ exists e,
                 (if is_absolute env (parse_path env (source j))
                  then lift (fs_exists env (parse_path env (source j)))
                  else ret false) st = (Exc e, st)).
  { intros st. destruct (is_absolute env _); [|left; reflexivity].
    destruct (fs_exists env _) as [[]|e]; unfold lift.
    - exfalso. apply Hfast. split; reflexivity.
    - left; reflexivity.
    - right. exists e. reflexivity. }
  destruct (Hnot (with_event (EvProcessing source_path (source j)) s))
    as [H | [e H]]; rewrite H; clear H Hnot; [|destruct e; reflexivity].
  unfold bind at 1. unfold bind at 1. unfold bind at 1. unfold lift at 1.
  simpl.
  destruct (glob env (source j) (search_paths_ s)) as [[|p0 paths]|e];
    [reflexivity | | destruct e; reflexivity].
  match goal with
  | |- context [bind (when ?c ?m) ?k ?st] =>
      destruct (bind (when c m) k st) as [r1 s1] eqn:Hb
  end.
  apply matches_branch with (j := j) in Hb; [|exact Hj].
  destruct Hb as (Hjobs & _).
  destruct r1 as [[]|[]]; simpl; exact Hjobs.
Qed.


End FanOut.

(** C7: a path job that goes through the glob and gets [k > 1] matches, with
    a transform that keeps to its contract.  The work items are exactly the
    matches, in the order the glob returned them, each carrying the plan made
    for that match on its own copy of the job.  With destination kind Path and
    an empty token the plan of a match is its own path (under the output
    directory, if one is set) with the extension replaced by [lua]; with a
    non-empty token the plan does not depend on the match, so all the items
    plan the same destination. *)
Theorem C7_fan_out (env : Env) (i : nat) (j : Job) (s : State)
    (paths : list Path) :
  jobs_ s !! i = Some j ->
  source_type j = source_path ->
  is_absolute env (parse_path env (source j)) = false
  \/ fs_exists env (parse_path env (source j)) = Val false ->
  glob env (source j) (search_paths_ s) = Val paths ->
  (1 < length paths)%nat ->
  transform_contract env ->
  let s' := snd (process_ env (stored i) s) in
  let plan := fun p => planned_path_job env (output_path_ s) p j in
  work_items (trace s')
  = work_items (trace s)
    ++ map (fun p => (p, dest_type (plan p), dest (plan p))) paths
  /\ (dest_type j = dest_path -> dest j = "" ->
      forall p,
        dest (plan p)
        = replace_extension env
            (if empty (output_path_ s) then p
             else path_append env (output_path_ s) p) "lua")
  /\ (dest j <> "" -> forall p q, plan p = plan q).
Proof.
  intros Hj Ht Hfast Hg Hk Hct s' plan. subst s' plan. split; [|split].
  - unfold process_.
    unfold try_catch, bind at 1, read_job, gets. simpl. rewrite Hj. simpl.
    rewrite Ht. unfold bind at 1, emit, modify. unfold bind at 1.
    assert (Hnot : forall st,
               (if is_absolute env (parse_path env (source j))
                then lift (fs_exists env (parse_path env (source j)))
                else ret false) st = (Val false, st)).
    { intros st. destruct Hfast as [-> | ->]; [reflexivity|].
      destruct (is_absolute env _); reflexivity. }
    rewrite Hnot. clear Hnot.
    unfold bind at 1. unfold bind at 1. unfold bind at 1. unfold lift at 1.
    simpl. rewrite Hg.
    destruct paths as [|p0 paths]; [simpl in Hk; lia|].
    match goal with
    | |- context [bind (when ?c ?m) ?k ?st] =>
        destruct (bind (when c m) k st) as [r1 s1] eqn:Hb
    end.
    apply matches_branch with (j := j) in Hb; [|exact Hj].
    destruct Hb as (_ & _ & Hc). destruct (Hc Hct) as [-> Hitems].
    simpl. rewrite Hitems. simpl.
    rewrite !work_items_app. simpl. rewrite !List.app_nil_r. reflexivity.
  - intros Hd He p. unfold planned_path_job. rewrite Hd, He. reflexivity.
  - intros Hne p q. unfold planned_path_job.
    apply empty_false in Hne. rewrite Hne. reflexivity.
Qed.

Lemma disk_env_contract (d : Disk) : transform_contract (disk_env d).
Proof.
  intros data e. simpl. destruct (mem data (disk_malformed d)).
  - split; discriminate.
  - split; discriminate.
Qed.

Lemma C7_fan_out_witness :
  let env := disk_env disk_two_templates in
  let s1 := with_search_paths ["/work"] (BltcApp env [positional "*.blt"]) in
  let s2 := with_search_paths ["/work"]
              (BltcApp env [opt_output "asdf"; positional "*.blt"]) in
  work_items (trace (snd (process_ env (stored 0) s1)))
  = [("/work/a.blt", dest_path, "/work/a.lua");
     ("/work/b.blt", dest_path, "/work/b.lua")]
  /\
  work_items (trace (snd (process_ env (stored 0) s2)))
  = [("/work/a.blt", dest_path, "asdf"); ("/work/b.blt", dest_path, "asdf")].
Proof.
  intros env s1 s2.
  pose (Hk := le_n 2 : (1 < length ["/work/a.blt"; "/work/b.blt"])%nat).
  split.
  - apply (proj1 (C7_fan_out env 0
                    (mkJob "*.blt" "" source_path dest_path) s1
                    ["/work/a.blt"; "/work/b.blt"]
                    eq_refl eq_refl (or_introl eq_refl) eq_refl Hk
                    (disk_env_contract disk_two_templates))).
  - apply (proj1 (C7_fan_out env 0
                    (mkJob "*.blt" "asdf" source_path dest_path) s2
                    ["/work/a.blt"; "/work/b.blt"]
                    eq_refl eq_refl (or_introl eq_refl) eq_refl Hk
                    (disk_env_contract disk_two_templates))).
Defined.

(** ** The stored job *)

Section Stored.

Variable env : Env.

Lemma handle_extends_jobs (a : Arg) (c : Cli) (s : State) :
  jobs_ s `prefix_of` jobs_ (snd (handle env a c s)).
Proof.
  destruct a; simpl; unfold_monad; simpl;
    try reflexivity; try (eexists; reflexivity).
  destruct (negb (empty (output_path_ s))); simpl; reflexivity.
Qed.

Lemma proc_call_extends_jobs (args : list Arg) (c : Cli) (s : State) :
  jobs_ s `prefix_of` jobs_ (snd (proc_call env args c s)).
Proof.
  revert c s. induction args as [|a args IH]; intros c s; [reflexivity|].
  simpl. unfold bind.
  pose proof (handle_extends_jobs a c s) as Ha.
  destruct (handle env a c s) as [[c'|e] s1]; simpl in *.
  - etransitivity; [exact Ha | apply IH].
  - exact Ha.
Qed.

(** On the fast path [process_path_] is handed the stored job itself. *)
Lemma process__fast_path_writes_job (i : nat) (j : Job) (s : State) :
  jobs_ s !! i = Some j ->
  source_type j = source_path ->
  is_absolute env (parse_path env (source j)) = true ->
  fs_exists env (parse_path env (source j)) = Val true ->
  jobs_ (snd (process_ env (stored i) s))
  = <[i := planned_path_job env (output_path_ s)
                            (parse_path env (source j)) j]> (jobs_ s).
Proof.
  intros Hj Ht Ha He.
  unfold process_. unfold_monad. simpl. rewrite Hj. simpl. rewrite Ht.
  rewrite Ha, He. simpl.
  destruct (process_path_ env _ _ _) as [r s1] eqn:H.
  apply process_path__spec with (j := j) in H; [|exact Hj].
  destruct H as (Hjobs & _). simpl in Hjobs.
  destruct r as [[]|[]]; simpl; exact Hjobs.
Qed.

(** A raw job is planned in place. *)
Lemma process__raw_writes_job (i : nat) (j : Job) (s : State) :
  jobs_ s !! i = Some j ->
  source_type j = source_raw ->
  jobs_ (snd (process_ env (stored i) s))
  = <[i := planned_non_path_job env (output_path_ s) j]> (jobs_ s).
Proof.
  intros Hj Ht.
  unfold process_. unfold_monad. simpl. rewrite Hj. simpl. rewrite Ht.
  destruct (process_non_path_ env _ _ _) as [r s1] eqn:H.
  apply process_non_path__spec with (j := j) in H; [|exact Hj].
  destruct H as (Hjobs & _). simpl in Hjobs.
  destruct r as [[]|[]]; simpl; exact Hjobs.
Qed.

(** So is a console job, once the standard input has been captured. *)
Lemma process__console_writes_job (i : nat) (j : Job) (s : State) :
  jobs_ s !! i = Some j ->
  source_type j = source_console ->
  (stdin_input s = None -> exists data, process_stdin env = Val data) ->
  jobs_ (snd (process_ env (stored i) s))
  = <[i := planned_non_path_job env (output_path_ s) j]> (jobs_ s).
Proof.
  intros Hj Ht Hin.
  unfold process_, get_stdin. unfold_monad. simpl. rewrite Hj. simpl.
  rewrite Ht.
  destruct (stdin_input s) as [input|] eqn:Hs; simpl.
  - destruct (process_non_path_ env _ _ _) as [r s1] eqn:H.
    apply process_non_path__spec with (j := j) in H; [|exact Hj].
    destruct H as (Hjobs & _). simpl in Hjobs.
    destruct r as [[]|[]]; simpl; exact Hjobs.
  - destruct (Hin eq_refl) as [data ->]. simpl.
    destruct (process_non_path_ env _ _ _) as [r s1] eqn:H.
    apply process_non_path__spec with (j := j) in H; [|exact Hj].
    destruct H as (Hjobs & _). simpl in Hjobs.
    destruct r as [[]|[]]; simpl; exact Hjobs.
Qed.

End Stored.

(** C2, as stated, fails: with [-d out -o x.lua -I t] the job is formed with
    destination [x.lua]; planning applies the output directory and stores
    [/work/out/x.lua] into that very job. *)
Lemma C2_planning_overwrites_stored_dest :
  let env := disk_env disk_two_templates in
  let args := [opt_output_dir "out"; opt_output "x.lua"; opt_input "t"] in
  map dest (jobs_ (BltcApp env args)) = ["x.lua"]
  /\ map dest (jobs_ (snd (bltc env args))) = ["/work/out/x.lua"]
  /\ ~ spec_is_kept (jobs_ (BltcApp env args)) (jobs_ (snd (bltc env args))).
Proof.
  split; [reflexivity|]. split; [reflexivity|].
  intros [Hd _]. vm_compute in Hd. discriminate Hd.
Qed.

(** * Further properties *)

(** ** The command line *)

Section CommandLine.

Variable env : Env.

(** The handlers touch neither the status nor the trace, the copy slot or the
    captured input. *)
Lemma handle_frame (a : Arg) (c : Cli) (s : State) :
  status_ (snd (handle env a c s)) = status_ s
  /\ trace (snd (handle env a c s)) = trace s
  /\ copy (snd (handle env a c s)) = copy s
  /\ stdin_input (snd (handle env a c s)) = stdin_input s.
Proof.
  destruct a; simpl; unfold_monad; simpl; try (repeat split; reflexivity).
  destruct (negb (empty (output_path_ s))); repeat split; reflexivity.
Qed.

Lemma proc_call_frame (args : list Arg) (c : Cli) (s : State) :
  status_ (snd (proc_call env args c s)) = status_ s
  /\ trace (snd (proc_call env args c s)) = trace s
  /\ copy (snd (proc_call env args c s)) = copy s
  /\ stdin_input (snd (proc_call env args c s)) = stdin_input s.
Proof.
  revert c s. induction args as [|a args IH]; intros c s.
  - repeat split; reflexivity.
  - simpl. unfold bind.
    destruct (handle_frame a c s) as (H1 & H2 & H3 & H4).
    destruct (handle env a c s) as [[c'|e] s1]; simpl in *.
    + destruct (IH c' s1) as (I1 & I2 & I3 & I4).
      repeat split; congruence.
    + repeat split; assumption.
Qed.

Lemma proc_call_app (args1 args2 : list Arg) (c : Cli) (s : State) :
  proc_call env (args1 ++ args2) c s
  = match proc_call env args1 c s with
    | (Val c1, s1) => proc_call env args2 c1 s1
    | (Exc e, s1) => (Exc e, s1)
    end.
Proof.
  revert c s. induction args1 as [|a args1 IH]; intros c s; [reflexivity|].
  simpl. unfold bind. destruct (handle env a c s) as [[c'|e] s1].
  - apply IH.
  - reflexivity.
Qed.

(** What the constructor does after the command line is read leaves the job
    list alone. *)
Lemma BltcApp_jobs (args : list Arg) :
  jobs_ (BltcApp env args)
  = jobs_ (snd (proc_call env args initial_cli initial_state)).
Proof.
  unfold BltcApp, BltcApp_body, try_catch, bind at 1.
  destruct (proc_call env args initial_cli initial_state) as [[c|e] s].
  - unfold_monad. simpl. repeat case_match; simplify_eq; simpl; congruence.
  - destruct e; reflexivity.
Qed.

(** X1: when the command line is accepted, the job list holds one job per
    input argument ([-I], [--stdin], positional), in the order of the command
    line, with the source and source kind that argument declares. *)
Theorem X1_jobs_follow_the_command_line (args : list Arg) (c : Cli) :
  fst (proc_call env args initial_cli initial_state) = Val c ->
  declared <$> jobs_ (BltcApp env args) = omap input_of args.
Proof.
  rewrite BltcApp_jobs.
  assert (G : forall args c0 s0 c1,
             fst (proc_call env args c0 s0) = Val c1 ->
             declared <$> jobs_ (snd (proc_call env args c0 s0))
             = (declared <$> jobs_ s0) ++ omap input_of args).
  { clear. induction args as [|a args IH]; intros c0 s0 c1 H.
    - simpl. symmetry. apply List.app_nil_r.
    - simpl in *. unfold bind in *.
      destruct (handle env a c0 s0) as [[c'|e] s1] eqn:Ha; [|discriminate H].
      rewrite (IH c' s1 c1 H). clear IH H.
      destruct a; simpl in Ha; unfold_monad; simpl in Ha;
        try (injection Ha as <- <-; simpl;
             rewrite ?fmap_app, <- ?List.app_assoc; reflexivity).
      + destruct (negb (empty (output_path_ s0)));
          [discriminate Ha | injection Ha as <- <-; reflexivity].
      + discriminate Ha. }
  intros H. apply (G args initial_cli initial_state c H).
Qed.

(** A handler that neither binds a destination nor declares an input leaves
    the pending destination as it is. *)
Lemma handle_neutral (a : Arg) (c c' : Cli) (s s' : State) :
  binds a = false -> input_of a = None ->
  handle env a c s = (Val c', s') ->
  cli_dest c' = cli_dest c /\ cli_dest_type c' = cli_dest_type c.
Proof.
  intros Hb Hi H. destruct a; try discriminate; simpl in H; unfold_monad;
    simpl in H; try (injection H as <- <-; split; reflexivity).
  destruct (negb (empty (output_path_ s)));
    [discriminate H | injection H as <- <-; split; reflexivity].
Qed.

Lemma proc_call_neutral (mid : list Arg) (c c' : Cli) (s s' : State) :
  Forall (fun m => binds m = false /\ input_of m = None) mid ->
  proc_call env mid c s = (Val c', s') ->
  cli_dest c' = cli_dest c /\ cli_dest_type c' = cli_dest_type c.
Proof.
  intros Hmid. revert c s. induction Hmid as [|m mid [Hb Hi] _ IH];
    intros c s H.
  - injection H as <- <-. split; reflexivity.
  - simpl in H. unfold bind in H.
    destruct (handle env m c s) as [[c1|e] s1] eqn:Hm; [|discriminate H].
    destruct (handle_neutral m c c1 s s1 Hb Hi Hm) as [<- <-].
    apply (IH c1 s1 H).
Qed.

(** X2: a destination bound with [--output] or [--stdout] is used up by the
    next input.  An input that follows another input with no binding in
    between is formed with an empty destination token, and with the default
    kind: Path for a positional argument, Console for [-I] and [--stdin]. *)
Theorem X2_binding_affects_one_input (a b : Arg) (mid : list Arg)
    (c c' : Cli) (s s' : State) :
  is_Some (input_of a) ->
  Forall (fun m => binds m = false /\ input_of m = None) mid ->
  is_Some (input_of b) ->
  proc_call env (a :: mid ++ [b]) c s = (Val c', s') ->
  exists j, last (jobs_ s') = Some j
            /\ dest j = "" /\ dest_type j = unbound_kind b.
Proof.
  intros Ha Hmid Hb H. simpl in H. unfold bind at 1 in H.
  destruct (handle env a c s) as [[c1|e] s1] eqn:H1; [|discriminate H].
  assert (Hc1 : cli_dest c1 = "" /\ cli_dest_type c1 = dest_path).
  { destruct a; try (destruct Ha as [? Ha]; discriminate Ha);
      simpl in H1; unfold_monad; simpl in H1; injection H1 as <- <-;
      split; reflexivity. }
  rewrite proc_call_app in H.
  destruct (proc_call env mid c1 s1) as [[c2|e] s2] eqn:H2; [|discriminate H].
  destruct (proc_call_neutral mid c1 c2 s1 s2 Hmid H2) as [Hd Ht].
  destruct Hc1 as [Hd1 Ht1]. rewrite Hd1 in Hd. rewrite Ht1 in Ht.
  simpl in H. unfold bind in H.
  destruct b; try (destruct Hb as [? Hb]; discriminate Hb);
    simpl in H; unfold_monad; simpl in H; injection H as <- <-; simpl;
    rewrite Hd, ?Ht; simpl; eexists; (split; [apply last_snoc|]);
    split; reflexivity.
Qed.

Lemma formed_jobs_console_by_default (args : list Arg) :
  Forall console_by_default (jobs_ (BltcApp env args)).
Proof.
  rewrite BltcApp_jobs.
  assert (G : forall args c s,
             Forall console_by_default (jobs_ s) ->
             Forall console_by_default (jobs_ (snd (proc_call env args c s)))).
  { clear. induction args as [|a args IH]; intros c s Hs; [exact Hs|].
    simpl. unfold bind.
    destruct (handle env a c s) as [[c1|e] s1] eqn:Ha; simpl.
    - apply IH.
      destruct a; simpl in Ha; unfold_monad; simpl in Ha;
        try case_match; simplify_eq; simpl; try exact Hs;
        (apply Forall_app; split; [exact Hs|]);
        (constructor; [|constructor]);
        unfold console_by_default; simpl; intros Hp Hd;
        try congruence; try reflexivity; rewrite Hd in *; discriminate.
    - destruct a; simpl in Ha; unfold_monad; simpl in Ha;
        try case_match; simplify_eq; exact Hs. }
  apply G. constructor.
Qed.

(** X3: every raw or console job the constructor forms without a destination
    token has destination kind Console, whatever the command line is. *)
Theorem X3_formed_jobs_console_by_default (args : list Arg) :
  Forall console_by_default (jobs_ (BltcApp env args)).
Proof. apply formed_jobs_console_by_default. Qed.

Lemma rejected_run (args : list Arg) (e : Exn) :
  fst (proc_call env args initial_cli initial_state) = Exc e ->
  fst (bltc env args) = Val 2
  /\ trace (snd (bltc env args)) = [EvRaise 2]
  /\ jobs_ (snd (bltc env args)) = jobs_ (BltcApp env args).
Proof.
  intros H. unfold bltc.
  assert (Hb : exists s, BltcApp env args
                         = with_event (EvRaise 2) (with_status 2 s)
                         /\ trace s = []).
  { unfold BltcApp, BltcApp_body, try_catch, bind at 1.
    destruct (proc_call_frame args initial_cli initial_state)
      as (_ & Ht & _).
    destruct (proc_call env args initial_cli initial_state) as [[c|e'] s];
      [discriminate H|].
    exists s. split; [destruct e'; reflexivity | exact Ht]. }
  destruct Hb as (s & Hb & Htr).
  assert (Hs : status_ (BltcApp env args) = 2
               /\ trace (BltcApp env args) = [EvRaise 2]).
  { rewrite Hb. simpl. rewrite Htr. split; reflexivity. }
  clear s Hb Htr.
  destruct Hs as [Hs Ht].
  unfold operator_call. unfold_monad. simpl. rewrite Hs. simpl.
  repeat split; assumption.
Qed.

(** X4: a command line the processor rejects sets the status to 2; the run
    then returns 2 at once, and the trace holds nothing but that raise. *)
Theorem X4_rejected_command_line_exits_2 (args : list Arg) (e : Exn) :
  fst (proc_call env args initial_cli initial_state) = Exc e ->
  fst (bltc env args) = Val 2
  /\ trace (snd (bltc env args)) = [EvRaise 2]
  /\ jobs_ (snd (bltc env args)) = jobs_ (BltcApp env args).
Proof. apply rejected_run. Qed.

(** X5: only one output directory may be given.  Once an [--output-dir] has
    set a non-empty path, a further [--output-dir] is refused, and the run
    exits with 2 whatever follows on the command line. *)
Theorem X5_second_output_dir_is_rejected (args rest : list Arg) (str : S)
    (c : Cli) (s : State) :
  proc_call env args initial_cli initial_state = (Val c, s) ->
  empty (output_path_ s) = false ->
  fst (bltc env (args ++ opt_output_dir str :: rest)) = Val 2.
Proof.
  intros Hp Ho.
  apply (rejected_run _ std_exception).
  rewrite proc_call_app, Hp. simpl. unfold_monad. simpl. rewrite Ho.
  reflexivity.
Qed.

End CommandLine.

(** ** Effects of processing one item *)

Lemma raised_app (a b : list Event) : raised (a ++ b) = raised a ++ raised b.
Proof.
  induction a as [|e a IH]; [reflexivity|].
  destruct e; simpl; rewrite ?IH; reflexivity.
Qed.

Lemma transforms_app (a b : list Event) :
  transforms (a ++ b) = transforms a ++ transforms b.
Proof.
  induction a as [|e a IH]; [reflexivity|].
  destruct e; simpl; rewrite ?IH; reflexivity.
Qed.

Lemma advances_refl (s : State) : advances s s [].
Proof.
  unfold advances. rewrite List.app_nil_r. repeat split; reflexivity.
Qed.

Lemma advances_trans (s s1 s2 : State) (e1 e2 : list Event) :
  advances s s1 e1 -> advances s1 s2 e2 -> advances s s2 (e1 ++ e2).
Proof.
  intros (T1 & S1 & D1 & P1 & O1) (T2 & S2 & D2 & P2 & O2).
  unfold advances. rewrite T2, T1, S2, S1, raised_app, fold_left_app.
  rewrite List.app_assoc. repeat split; congruence.
Qed.

Lemma advances_event (e : Event) (s : State) :
  raised [e] = [] -> advances s (with_event e s) [e].
Proof.
  intros He. unfold advances. rewrite He. repeat split; reflexivity.
Qed.

Lemma advances_status_max (c : Z) (s : State) :
  advances s (snd (status_max c s)) [EvRaise c].
Proof. unfold advances. repeat split; reflexivity. Qed.

Lemma Forall_item_job (dbg : bool) (dirs : list Path) (evs : list Event) :
  Forall (item_event dbg) evs -> Forall (job_event dbg dirs) evs.
Proof.
  intros H. eapply Forall_impl; [exact H|].
  intros e. destruct e; simpl; tauto.
Qed.

Section Effects.

Variable env : Env.

Lemma process_raw__effects (data : S) (job : JobRef) (s : State)
    (r : Res unit) (s' : State) :
  process_raw_ env data job s = (r, s') ->
  exists evs, advances s s' evs /\ Forall (item_event (debug_mode_ s)) evs.
Proof.
  unfold process_raw_, advances. unfold_monad. simpl. intros H.
  repeat case_match; simplify_eq; simpl in *;
    eexists; (split; [split; [trace_ext|]|]);
    first [ repeat split; reflexivity
          | repeat constructor; simpl; congruence ].
Qed.

(** Finishes an effects goal once the call to [process_raw_] is reached. *)
Ltac after_raw H :=
  let evs := fresh "evs" in
  let Hadv := fresh "Hadv" in
  let Hall := fresh "Hall" in
  destruct (process_raw__effects _ _ _ _ _ H) as (evs & Hadv & Hall);
  simpl in Hall;
  eexists; split;
  [ eapply advances_trans; [|exact Hadv];
    unfold advances; simpl; repeat split; trace_ext
  | first [ exact Hall | constructor; [exact I | exact Hall] ] ].

Lemma process_path__effects (path : Path) (job : JobRef) (s : State)
    (r : Res unit) (s' : State) :
  process_path_ env path job s = (r, s') ->
  exists evs, advances s s' evs /\ Forall (item_event (debug_mode_ s)) evs.
Proof.
  intros H. unfold process_path_ in H. unfold_monad. simpl in H.
  destruct job as [i|]; simpl in H;
    repeat (case_match; simpl in *); simplify_eq; simpl in *;
    try (match goal with
         | H : process_raw_ _ _ _ _ = _ |- _ => after_raw H
         end);
    (eexists; split;
     [ unfold advances; simpl; split; [trace_ext|repeat split; reflexivity]
     | repeat constructor ]).
Qed.

Lemma process_non_path__effects (data : S) (job : JobRef) (s : State)
    (r : Res unit) (s' : State) :
  process_non_path_ env data job s = (r, s') ->
  exists evs, advances s s' evs /\ Forall (item_event (debug_mode_ s)) evs.
Proof.
  intros H. unfold process_non_path_ in H. unfold_monad. simpl in H.
  destruct job as [i|]; simpl in H;
    repeat (case_match; simpl in * ); simplify_eq; simpl in *;
    match goal with
    | H : process_raw_ _ _ _ _ = _ |- _ =>
        destruct (process_raw__effects _ _ _ _ _ H) as (evs & Hadv & Hall);
        exists evs; split; [|exact Hall];
        unfold advances in *; simpl in *; exact Hadv
    end.
Qed.

Lemma expansion_loop_effects (i : nat) (paths : list Path) (s : State)
    (r : Res unit) (s' : State) :
  for_each paths
    (fun p => let* j0 := read_job (stored i) in
              write_job local_copy j0 >> process_path_ env p local_copy) s
  = (r, s') ->
  exists evs, advances s s' evs /\ Forall (item_event (debug_mode_ s)) evs.
Proof.
  revert s. induction paths as [|p paths IH]; intros s H.
  - injection H as <- <-. exists []. split; [apply advances_refl|constructor].
  - set (body := fun p : Path => _) in *.
    simpl in H. unfold bind at 1 in H.
    destruct (body p s) as [r1 s1] eqn:H1.
    unfold body in H1. unfold_monad. simpl in H1.
    destruct (process_path__effects _ _ _ _ _ H1) as (e1 & A1 & F1).
    assert (A0 : advances s s1 e1).
    { unfold advances in *. simpl in *. exact A1. }
    simpl in F1. destruct r1 as [[]|e].
    + destruct (IH s1 H) as (e2 & A2 & F2).
      exists (e1 ++ e2). split; [eapply advances_trans; eassumption|].
      apply Forall_app. split; [exact F1|].
      destruct A0 as (_ & _ & <- & _). exact F2.
    + injection H as <- <-. exists e1. split; assumption.
Qed.

Lemma expanded_effects (paths : list Path) (s : State) :
  exists s',
    for_each paths (fun p => emit (EvExpanded p)) s = (Val tt, s')
    /\ jobs_ s' = jobs_ s
    /\ stdin_input s' = stdin_input s
    /\ advances s s' (map EvExpanded paths).
Proof.
  revert s. induction paths as [|p paths IH]; intros s.
  - exists s. split; [reflexivity|]. split; [reflexivity|].
    split; [reflexivity|apply advances_refl].
  - destruct (IH (with_event (EvExpanded p) s)) as (s' & Hrun & Hj & Hi & A).
    exists s'. simpl. unfold bind at 1. unfold emit at 1, modify.
    rewrite Hrun. split; [reflexivity|]. split; [exact Hj|].
    split; [exact Hi|].
    apply (advances_trans s (with_event (EvExpanded p) s) s'
             [EvExpanded p] (map EvExpanded paths)); [|exact A].
    apply advances_event. reflexivity.
Qed.

End Effects.

(** ** Effects of processing one job *)

Lemma planned_path_job_keeps (env : Env) (o p : Path) (j : Job) :
  declared (planned_path_job env o p j) = declared j
  /\ dest_type (planned_path_job env o p j) = dest_type j.
Proof.
  unfold planned_path_job. destruct (dest_type j) eqn:Ht; simpl;
    rewrite ?Ht; split; reflexivity.
Qed.

Lemma planned_non_path_job_keeps (env : Env) (o : Path) (j : Job) :
  declared (planned_non_path_job env o j) = declared j
  /\ (console_by_default j -> source_type j <> source_path ->
      dest_type (planned_non_path_job env o j) = dest_type j).
Proof.
  unfold planned_non_path_job.
  destruct (dest_type j) eqn:Ht.
  - destruct (empty (dest j)) eqn:He; simpl; (split; [reflexivity|]);
      intros Hc Hs; [|exact Ht].
    apply empty_true in He. rewrite (Hc Hs He) in Ht. discriminate Ht.
  - split; [reflexivity|]. intros _ _. exact Ht.
Qed.

Section OneJob.

Variable env : Env.

Lemma matches_branch_effects (i : nat) (j : Job) (paths : list Path)
    (s : State) (r : Res unit) (s' : State) :
  jobs_ s !! i = Some j ->
  (when (1 <? length paths)%nat
        (for_each paths (fun p => emit (EvExpanded p))) >>
   for_each paths
     (fun p => let* j0 := read_job (stored i) in
               write_job local_copy j0 >> process_path_ env p local_copy)) s
  = (r, s') ->
  jobs_ s' = jobs_ s
  /\ stdin_input s' = stdin_input s
  /\ (transform_contract env -> r = Val tt)
  /\ exists evs, advances s s' evs
                 /\ Forall (job_event (debug_mode_ s) (search_paths_ s)) evs.
Proof.
  intros Hj H. unfold bind at 1 in H. unfold when in H.
  destruct (1 <? length paths)%nat.
  - destruct (expanded_effects paths s) as (s1 & Hrun & Hjobs & Hin & A1).
    rewrite Hrun in H.
    assert (Hj1 : jobs_ s1 !! i = Some j) by (rewrite Hjobs; exact Hj).
    destruct (expansion_loop env i j paths s1 r s' Hj1 H)
      as (Hjobs' & (_ & _ & _ & Hin') & _ & Hc).
    destruct (expansion_loop_effects env i paths s1 r s' H) as (e2 & A2 & F2).
    split; [congruence|]. split; [congruence|].
    split; [intros Hct; apply (Hc Hct)|].
    exists (map EvExpanded paths ++ e2).
    split; [eapply advances_trans; eassumption|].
    apply Forall_app. split.
    + apply Forall_forall. intros e He. apply list_elem_of_In in He.
      apply in_map_iff in He. destruct He as (p & <- & _). exact I.
    + apply Forall_item_job. destruct A1 as (_ & _ & <- & _). exact F2.
  - destruct (expansion_loop env i j paths s r s' Hj H)
      as (Hjobs' & (_ & _ & _ & Hin') & _ & Hc).
    destruct (expansion_loop_effects env i paths s r s' H) as (e2 & A2 & F2).
    split; [assumption|]. split; [assumption|].
    split; [intros Hct; apply (Hc Hct)|].
    exists e2. split; [exact A2|]. apply Forall_item_job. exact F2.
Qed.

Lemma reads_ok_none (s s' : State) :
  stdin_input s' = stdin_input s -> reads_ok env s s' [].
Proof. intros H. left. split; [reflexivity | exact H]. Qed.

Lemma reads_ok_keeps (s s0 sm : State) (rd : list Event) :
  reads_ok env s s0 rd -> stdin_input sm = stdin_input s0 ->
  reads_ok env s sm rd.
Proof.
  intros [[-> H] | (-> & Hn & H)] Hin; [left | right]; rewrite Hin;
    repeat split; assumption.
Qed.

(** From a state [s0] reached inside the body of [process_], the call of
    [process_non_path_] on the stored job. *)
Lemma non_path_facts (i : nat) (j : Job) (s s0 : State) (data : S)
    (rd : list Event) (r : Res unit) (sm : State) :
  jobs_ s !! i = Some j ->
  source_type j <> source_path ->
  advances s s0 (EvProcessing (source_type j) (source j) :: rd) ->
  reads_ok env s s0 rd ->
  jobs_ s0 = jobs_ s ->
  process_non_path_ env data (stored i) s0 = (r, sm) ->
  body_facts env i j s r sm.
Proof.
  intros Hj Hs A0 R0 J0 H.
  assert (Hj0 : job_at (stored i) s0 = Some j) by (simpl; rewrite J0; exact Hj).
  destruct (process_non_path__spec env data (stored i) j s0 r sm Hj0 H)
    as (Hjobs & _ & (_ & _ & _ & Hin) & _ & Hr).
  destruct (process_non_path__effects env data (stored i) s0 r sm H)
    as (evs & A & F).
  destruct (planned_non_path_job_keeps env (output_path_ s0) j) as [Kd Kt].
  exists rd, evs, (planned_non_path_job env (output_path_ s0) j).
  split; [apply (advances_trans s s0 sm _ evs A0 A)|].
  split; [apply (reads_ok_keeps s s0 sm rd R0 Hin)|].
  split.
  { apply Forall_item_job. destruct A0 as (_ & _ & <- & _). exact F. }
  split; [simpl in Hjobs; rewrite Hjobs, J0; reflexivity|].
  split; [exact Kd|]. split; [intros Hc; apply Kt; assumption|].
  intros Hcalm. apply Hr. apply Hcalm.
Qed.

(** The same for [process_path_] called on the stored job (the fast path). *)
Lemma path_facts (i : nat) (j : Job) (s s0 : State) (path : Path)
    (r : Res unit) (sm : State) :
  jobs_ s !! i = Some j ->
  advances s s0 [EvProcessing (source_type j) (source j)] ->
  jobs_ s0 = jobs_ s ->
  stdin_input s0 = stdin_input s ->
  process_path_ env path (stored i) s0 = (r, sm) ->
  body_facts env i j s r sm.
Proof.
  intros Hj A0 J0 I0 H.
  assert (Hj0 : job_at (stored i) s0 = Some j) by (simpl; rewrite J0; exact Hj).
  destruct (process_path__spec env path (stored i) j s0 r sm Hj0 H)
    as (Hjobs & _ & (_ & _ & _ & Hin) & _ & Hr).
  destruct (process_path__effects env path (stored i) s0 r sm H)
    as (evs & A & F).
  destruct (planned_path_job_keeps env (output_path_ s0) path j) as [Kd Kt].
  exists [], evs, (planned_path_job env (output_path_ s0) path j).
  split; [apply (advances_trans s s0 sm _ evs A0 A)|].
  split; [left; split; [reflexivity | congruence]|].
  split.
  { apply Forall_item_job. destruct A0 as (_ & _ & <- & _). exact F. }
  split; [simpl in Hjobs; rewrite Hjobs, J0; reflexivity|].
  split; [exact Kd|]. split; [intros _; exact Kt|].
  intros Hcalm. apply Hr. apply Hcalm.
Qed.

(** The body of [process_] left by an exception before any item was
    started, or finished without one. *)
Lemma no_item_facts (i : nat) (j : Job) (s sm : State) (rd pre : list Event)
    (r : Res unit) :
  jobs_ s !! i = Some j ->
  advances s sm (EvProcessing (source_type j) (source j) :: rd ++ pre) ->
  reads_ok env s sm rd ->
  Forall (job_event (debug_mode_ s) (search_paths_ s)) pre ->
  jobs_ sm = jobs_ s ->
  (calm env -> r = Val tt) ->
  body_facts env i j s r sm.
Proof.
  intros Hj A R F J Hr. exists rd, pre, j.
  split; [exact A|]. split; [exact R|]. split; [exact F|].
  split; [rewrite J; symmetry; apply list_insert_id; exact Hj|].
  split; [reflexivity|]. split; [reflexivity|exact Hr].
Qed.

Lemma glob_facts (i : nat) (j : Job) (s : State) (r : Res unit)
    (sm : State) :
  jobs_ s !! i = Some j ->
  source_type j = source_path ->
  (let* search_paths := gets search_paths_ in
   emit (EvGlob (source j) search_paths) >>
   let* paths := lift (glob env (source j) search_paths) in
   match paths with
   | _ :: _ =>
       when (1 <? length paths)%nat
            (for_each paths (fun p => emit (EvExpanded p))) >>
       for_each paths (fun p =>
         let* j0 := read_job (stored i) in
         write_job local_copy j0 >>
         process_path_ env p local_copy)
   | [] =>
       status_max 3 >>
       emit (EvNoFilesFound (parse_path env (source j)))
   end) (with_event (EvProcessing source_path (source j)) s) = (r, sm) ->
  body_facts env i j s r sm.
Proof.
  intros Hj Ht H.
  unfold bind at 1, gets in H. unfold bind at 1, emit at 1, modify in H.
  unfold bind at 1, lift in H. simpl in H.
  destruct (glob env (source j) (search_paths_ s)) as [[|p l]|e] eqn:Hg.
  - unfold_monad. simpl in H. injection H as <- <-.
    apply (no_item_facts i j s _ []
             [EvGlob (source j) (search_paths_ s); EvRaise 3;
              EvNoFilesFound (parse_path env (source j))]);
      try reflexivity; try assumption.
    + unfold advances. rewrite Ht. simpl. split; [trace_ext|].
      repeat split; reflexivity.
    + apply reads_ok_none; reflexivity.
    + repeat constructor.
  - match type of H with
    | _ ?st = _ => remember st as s1 eqn:Hs1
    end.
    assert (Hj1 : jobs_ s1 !! i = Some j) by (subst s1; exact Hj).
    destruct (matches_branch_effects i j (p :: l) s1 r sm Hj1 H)
      as (Hjobs & Hin & Hc & evs & A & F).
    apply (no_item_facts i j s sm []
             (EvGlob (source j) (search_paths_ s) :: evs)).
    + exact Hj.
    + apply (advances_trans s s1 sm
               [EvProcessing (source_type j) (source j);
                EvGlob (source j) (search_paths_ s)] evs); [|exact A].
      subst s1. unfold advances. rewrite Ht. simpl. split; [trace_ext|].
      repeat split; reflexivity.
    + left. split; [reflexivity|]. subst s1. exact Hin.
    + constructor; [reflexivity|]. subst s1. exact F.
    + subst s1. exact Hjobs.
    + intros Hcalm. apply Hc. apply Hcalm.
  - injection H as <- <-.
    apply (no_item_facts i j s _ [] [EvGlob (source j) (search_paths_ s)]);
      try reflexivity; try assumption.
    + unfold advances. rewrite Ht. simpl. split; [trace_ext|].
      repeat split; reflexivity.
    + apply reads_ok_none; reflexivity.
    + repeat constructor.
    + intros (_ & _ & Hglob & _). exfalso. exact (Hglob _ _ _ Hg).
Qed.

Lemma console_facts (i : nat) (j : Job) (s : State) (r : Res unit)
    (sm : State) :
  jobs_ s !! i = Some j ->
  source_type j = source_console ->
  (let* data := get_stdin env in process_non_path_ env data (stored i))
    (with_event (EvProcessing source_console (source j)) s) = (r, sm) ->
  body_facts env i j s r sm.
Proof.
  intros Hj Ht H.
  assert (Hs : source_type j <> source_path) by (rewrite Ht; discriminate).
  unfold bind at 1, get_stdin in H. unfold bind at 1, gets in H.
  simpl in H. destruct (stdin_input s) as [input|] eqn:Hin.
  - unfold ret at 1 in H.
    apply (non_path_facts i j s _ input [] r sm Hj Hs) in H;
      try assumption; try reflexivity.
    + unfold advances. rewrite Ht. simpl. repeat split; reflexivity.
    + apply reads_ok_none; reflexivity.
  - unfold bind at 1, emit at 1, modify in H. unfold bind at 1, lift in H.
    destruct (process_stdin env) as [input|e] eqn:Hp.
    + unfold bind at 1, modify, ret in H.
      apply (non_path_facts i j s _ input [EvReadStdin] r sm Hj Hs) in H;
        try assumption; try reflexivity.
      * unfold advances. rewrite Ht. simpl. split; [trace_ext|].
        repeat split; reflexivity.
      * right. rewrite Hp. repeat split; assumption.
    + injection H as <- <-.
      apply (no_item_facts i j s _ [EvReadStdin] []);
        try reflexivity; try assumption.
      * unfold advances. rewrite Ht. simpl. split; [trace_ext|].
        repeat split; reflexivity.
      * right. rewrite Hp. repeat split; assumption.
      * constructor.
      * intros (_ & _ & _ & Hstd). exfalso. exact (Hstd _ Hp).
Qed.

Lemma raised_reads (s s' : State) (rd evs : list Event) :
  reads_ok env s s' rd -> raised (rd ++ evs) = raised evs.
Proof. intros [[-> _] | (-> & _)]; reflexivity. Qed.

(** The catch clauses of [process_], applied to what its body leaves. *)
Lemma close_job (i : nat) (j : Job) (s : State) (r : Res unit) (sm s' : State) :
  body_facts env i j s r sm ->
  s' = snd (match r with
            | Val a => (Val a, sm)
            | Exc e =>
                match e with
                | filesystem_error => status_assign 4
                | Fatal => status_assign 1
                | std_exception => status_assign 1
                end sm
            end) ->
  job_summary env i j s s'.
Proof.
  intros (rd & evs & j' & (T & St & D & P & O) & R & F & J & Kd & Kt & Hr) ->.
  destruct r as [[]|e].
  - exists rd, evs, j'. simpl. repeat split; try assumption.
    intros _. rewrite St. simpl. rewrite (raised_reads s sm rd evs R).
    reflexivity.
  - assert (Hnot : ~ calm env) by (intros Hc; specialize (Hr Hc); discriminate).
    exists rd,
      (evs ++ [EvRaise (match e with filesystem_error => 4 | _ => 1 end)]),
      j'.
    destruct e; simpl; rewrite T;
      (split; [rewrite <- ?List.app_assoc; simpl;
               rewrite <- ?List.app_assoc; reflexivity|]);
      (split; [eapply reads_ok_keeps; [exact R|reflexivity]|]);
      (split; [apply Forall_app; split; [exact F|repeat constructor]|]);
      repeat split; try assumption; intros Hc; contradiction.
Qed.

(** Every call of [process_] on a stored job fits [job_summary]. *)
Lemma process__summary (i : nat) (j : Job) (s : State) :
  jobs_ s !! i = Some j ->
  job_summary env i j s (snd (process_ env (stored i) s)).
Proof.
  intros Hj. unfold process_, try_catch.
  match goal with
  | |- context [let (_, _) := ?b in _] => destruct b as [r sm] eqn:Hb
  end.
  eapply close_job; [|reflexivity].
  unfold bind at 1, read_job, gets in Hb. simpl in Hb. rewrite Hj in Hb.
  simpl in Hb. destruct (source_type j) eqn:Ht.
  - unfold bind at 1, emit at 1, modify in Hb. unfold bind at 1 in Hb.
    destruct (is_absolute env (parse_path env (source j)));
      [destruct (fs_exists env (parse_path env (source j)))
         as [[]|e] eqn:He|]; unfold lift, ret in Hb.
    + apply (path_facts i j s _ _ r sm Hj) in Hb; try assumption;
        try reflexivity.
      unfold advances. rewrite Ht. simpl. repeat split; reflexivity.
    + apply glob_facts; assumption.
    + injection Hb as <- <-.
      apply (no_item_facts i j s _ [] []); try reflexivity; try assumption.
      * unfold advances. rewrite Ht. simpl. repeat split; reflexivity.
      * apply reads_ok_none; reflexivity.
      * constructor.
      * intros (_ & Hex & _). exfalso. exact (Hex _ _ He).
    + apply glob_facts; assumption.
  - unfold bind at 1, emit at 1, modify in Hb.
    assert (Hs : source_type j <> source_path) by (rewrite Ht; discriminate).
    apply (non_path_facts i j s _ (source j) [] r sm Hj Hs) in Hb;
      try assumption; try reflexivity.
    + unfold advances. rewrite Ht. simpl. repeat split; reflexivity.
    + apply reads_ok_none; reflexivity.
  - unfold bind at 1, emit at 1, modify in Hb.
    apply console_facts; assumption.
Qed.

End OneJob.

(** ** The job loop *)

Lemma job_events_views (dbg : bool) (dirs : list Path) (evs : list Event) :
  Forall (job_event dbg dirs) evs ->
  processed evs = [] /\ stdin_reads evs = [].
Proof.
  induction 1 as [|e evs He _ [IH1 IH2]]; [split; reflexivity|].
  destruct e; simpl in He; try contradiction; simpl; split; assumption.
Qed.

Lemma Forall_job_run (dbg : bool) (dirs : list Path) (evs : list Event) :
  Forall (job_event dbg dirs) evs -> Forall (run_event dbg dirs) evs.
Proof.
  intros H. eapply Forall_impl; [exact H|].
  intros e. destruct e; simpl; tauto.
Qed.

Lemma fmap_insert_same {A B} (f : A -> B) (l : list A) (i : nat) (x x' : A) :
  l !! i = Some x -> f x' = f x -> f <$> <[i := x']> l = f <$> l.
Proof.
  intros Hl Hf. rewrite list_fmap_insert, Hf. apply list_insert_id.
  rewrite list_lookup_fmap, Hl. reflexivity.
Qed.

Lemma max_severity_nonneg (l : list Z) : 0 <= max_severity l.
Proof. unfold max_severity. induction l as [|x l IH]; simpl; lia. Qed.

Lemma fold_left_max_severity (l : list Z) :
  fold_left Z.max l 0 = max_severity l.
Proof.
  assert (G : forall a, 0 <= a ->
                        fold_left Z.max l a = Z.max a (max_severity l)).
  { unfold max_severity. induction l as [|x l IH]; intros a Ha; simpl.
    - lia.
    - rewrite IH by lia. lia. }
  rewrite G by lia. pose proof (max_severity_nonneg l). lia.
Qed.

Lemma processed_app (a b : list Event) :
  processed (a ++ b) = processed a ++ processed b.
Proof. apply omap_app. Qed.

Lemma stdin_reads_app (a b : list Event) :
  stdin_reads (a ++ b) = stdin_reads a ++ stdin_reads b.
Proof. apply omap_app. Qed.

Section Loop.

Variable env : Env.

Lemma reads_views (s s' : State) (rd : list Event) :
  reads_ok env s s' rd ->
  processed rd = [] /\ raised rd = []
  /\ Forall (run_event (debug_mode_ s) (search_paths_ s)) rd.
Proof.
  intros [[-> _] | (-> & _)]; repeat split; repeat constructor.
Qed.

Lemma job_loop (n start : nat) (s : State) :
  (start + n <= length (jobs_ s))%nat ->
  exists s' evs,
    for_each (seq start n) (fun i => process_ env (stored i)) s = (Val tt, s')
    /\ trace s' = trace s ++ evs
    /\ Forall (run_event (debug_mode_ s) (search_paths_ s)) evs
    /\ processed evs = take n (drop start (declared <$> jobs_ s))
    /\ debug_mode_ s' = debug_mode_ s
    /\ search_paths_ s' = search_paths_ s
    /\ output_path_ s' = output_path_ s
    /\ declared <$> jobs_ s' = declared <$> jobs_ s
    /\ (forall k, (start + n <= k)%nat -> jobs_ s' !! k = jobs_ s !! k)
    /\ ((forall k j, (start <= k)%nat -> jobs_ s !! k = Some j ->
                     console_by_default j) ->
        dest_type <$> jobs_ s' = dest_type <$> jobs_ s)
    /\ (calm env -> status_ s' = fold_left Z.max (raised evs) (status_ s))
    /\ (is_Some (stdin_input s) ->
        stdin_input s' = stdin_input s /\ stdin_reads evs = [])
    /\ ((exists d, process_stdin env = Val d) ->
        (length (stdin_reads evs) <= 1)%nat).
Proof.
  revert start s. induction n as [|n IH]; intros start s Hlen.
  - exists s, []. simpl. rewrite List.app_nil_r.
    repeat split; try reflexivity; auto.
  - destruct (lookup_lt_is_Some_2 (jobs_ s) start ltac:(lia)) as [j Hj].
    pose proof (process__summary env start j s Hj) as Hsum.
    pose proof (process__returns env (stored start) s) as Hret.
    destruct (process_ env (stored start) s) as [r1 s1] eqn:H1.
    simpl in Hsum, Hret. subst r1.
    destruct Hsum as (rd & e1 & j' & T1 & R1 & F1 & D1 & P1 & O1 & J1 & K1
                      & Kt1 & St1).
    assert (Hlen1 : (Datatypes.S start + n <= length (jobs_ s1))%nat).
    { rewrite J1, length_insert. lia. }
    destruct (IH (Datatypes.S start) s1 Hlen1)
      as (s' & e2 & Hrun & T2 & F2 & Pr2 & D2 & P2 & O2 & Dc2 & Lk2 & Dt2
          & St2 & In2 & Rd2).
    assert (Hdecl1 : declared <$> jobs_ s1 = declared <$> jobs_ s).
    { rewrite J1. apply (fmap_insert_same declared _ _ j j' Hj K1). }
    destruct (job_events_views _ _ e1 F1) as [Pe1 Re1].
    destruct (reads_views s s1 rd R1) as (Prd & Rrd & Frd).
    exists s', (EvProcessing (source_type j) (source j) :: rd ++ e1 ++ e2).
    split.
    { simpl. unfold bind at 1. rewrite H1. exact Hrun. }
    split.
    { rewrite T2, T1, <- List.app_assoc. simpl.
      rewrite <- List.app_assoc. reflexivity. }
    split.
    { constructor; [exact I|]. apply Forall_app. split; [exact Frd|].
      apply Forall_app. split; [apply Forall_job_run; exact F1|].
      rewrite D1, P1 in F2. exact F2. }
    split.
    { change (processed (EvProcessing (source_type j) (source j)
                         :: rd ++ e1 ++ e2))
        with (declared j :: processed (rd ++ e1 ++ e2)).
      rewrite !processed_app, Prd, Pe1, Pr2, Hdecl1. simpl.
      rewrite (drop_S (declared <$> jobs_ s) (declared j) start)
        by (rewrite list_lookup_fmap, Hj; reflexivity).
      reflexivity. }
    split; [congruence|]. split; [congruence|]. split; [congruence|].
    split; [congruence|].
    split.
    { intros k Hk. rewrite Lk2 by lia. rewrite J1.
      apply list_lookup_insert_ne. lia. }
    split.
    { intros Hc. rewrite Dt2.
      - rewrite J1. apply (fmap_insert_same dest_type _ _ j j' Hj).
        apply Kt1. apply (Hc start j); [lia | exact Hj].
      - intros k j0 Hk Hk0. rewrite J1 in Hk0.
        rewrite list_lookup_insert_ne in Hk0 by lia.
        apply (Hc k j0); [lia | exact Hk0]. }
    split.
    { intros Hc. rewrite (St2 Hc), (St1 Hc).
      change (raised (EvProcessing (source_type j) (source j)
                      :: rd ++ e1 ++ e2))
        with (raised (rd ++ e1 ++ e2)).
      rewrite !raised_app, Rrd. simpl. rewrite fold_left_app. reflexivity. }
    change (stdin_reads (EvProcessing (source_type j) (source j)
                         :: rd ++ e1 ++ e2))
      with (stdin_reads (rd ++ e1 ++ e2)).
    rewrite !stdin_reads_app, Re1. simpl.
    split.
    { intros Hs. destruct R1 as [[-> Rs] | (_ & Rn & _)].
      - rewrite <- Rs in Hs. destruct (In2 Hs) as [In2a In2b].
        split; [congruence | exact In2b]. 
      - rewrite Rn in Hs. destruct Hs as [? Hs]. discriminate Hs. }
    intros [d Hd]. destruct R1 as [[-> Rs] | (-> & Rn & Rs)].
    + simpl. apply Rd2. exists d. exact Hd.
    + rewrite Hd in Rs.
      destruct (In2 (ex_intro _ d Rs)) as [_ ->]. simpl. lia.
Qed.

(** The loop itself never ends in an exception. *)
Lemma loop_returns (l : list nat) (s : State) :
  fst (for_each l (fun i => process_ env (stored i)) s) = Val tt.
Proof.
  revert s. induction l as [|i l IH]; intros s; [reflexivity|].
  rewrite for_each_process_. apply IH.
Qed.

(** What [operator()] does once its setup block is behind it. *)
Lemma after_setup (s1 : State) :
  status_ s1 = 0 ->
  (let* st := gets status_ in
   if negb (Z.eqb st 0) then ret st
   else
     let* jobs := gets jobs_ in
     try_catch
       (for_each (seq 0 (length jobs)) (fun i => process_ env (stored i)))
       (fun e =>
          match e with
          | Fatal => status_max 1
          | filesystem_error => status_max 1
          | std_exception => status_max 1
          end) >>
     gets status_) s1
  = (Val (status_ (loop_end env s1)), loop_end env s1).
Proof.
  intros Hs. unfold loop_end. unfold bind at 1, gets at 1. rewrite Hs. simpl.
  unfold bind at 1, gets at 1. unfold bind at 1, try_catch.
  pose proof (loop_returns (seq 0 (length (jobs_ s1))) s1) as Hr.
  destruct (for_each _ _ s1) as [r sF]. simpl in Hr. subst r. reflexivity.
Qed.

Lemma setup_passes_runs (s : State) :
  status_ s = 0 -> setup_passes env s -> runs env s.
Proof.
  intros Hs [Hw Hout]. unfold runs, operator_call.
  unfold bind at 1, gets at 1. rewrite Hs. simpl.
  unfold_monad. simpl.
  destruct (search_paths_ s) as [|d0 ds] eqn:Hsp;
    [destruct (Hw eq_refl) as [w Hcwd]; rewrite Hcwd|]; simpl;
    (destruct (empty (output_path_ s)) eqn:Ho; simpl;
     [|destruct (Hout eq_refl) as (abs & ex & Ha & He & Hc & Hd);
       rewrite Ha; simpl; rewrite He; simpl;
       destruct ex; simpl; [|rewrite (Hc eq_refl); simpl];
       rewrite Hd; simpl]).
  all: match goal with
       | |- exists _ _, _ ?sx = _ /\ _ =>
           exists sx; eexists;
           (split; [apply (after_setup sx); simpl; exact Hs|]); simpl
       end.
  all: repeat split; try reflexivity; try exact Hs; try exact Hsp.
  all: try (eexists; split; reflexivity).
  all: try (symmetry; apply List.app_nil_r).
  all: first [ left; reflexivity | right; eexists; reflexivity ].
Qed.

(** Evaluates the setup block along the outcomes recorded as equations. *)
Ltac setup_stops :=
  unfold stops, operator_call; unfold_monad; simpl;
  repeat (match goal with
          | H : status_ _ = _ |- _ => rewrite H
          | H : search_paths_ _ = _ |- _ => rewrite H
          | H : cwd _ = _ |- _ => rewrite H
          | H : empty _ = _ |- _ => rewrite H
          | H : fs_absolute _ _ = _ |- _ => rewrite H
          | H : fs_exists _ _ = _ |- _ => rewrite H
          | H : fs_create_directories _ _ = _ |- _ => rewrite H
          | H : fs_is_directory _ _ = _ |- _ => rewrite H
          end; simpl);
  try match goal with
      | e : Exn |- _ => destruct e; simpl
      end;
  eexists _, _; (split; [reflexivity|]); simpl;
  repeat split; try reflexivity; try assumption;
  try lazymatch goal with
      | |- (?t ++ [?a]) ++ [?e] = ?t ++ ?p ++ [?e] =>
          unify p [a]; rewrite <- List.app_assoc; reflexivity
      | |- ?t ++ [?e] = ?t ++ ?p ++ [?e] =>
          unify p (@nil Event); reflexivity
      end;
  try lazymatch goal with
      | |- _ \/ _ => first [ left; reflexivity | right; eexists; reflexivity ]
      end.

(** [operator()] entered with status 0 either gets through its setup block
    or leaves it with 1 (an exception) or 5 (the output path is not a
    directory). *)
Lemma setup_cases (s : State) :
  status_ s = 0 -> runs env s \/ stops env s 1 \/ stops env s 5.
Proof.
  intros Hs.
  assert (Hcwd : (search_paths_ s = [] -> exists w, cwd env = Val w)
                 \/ (search_paths_ s = [] /\ exists e, cwd env = Exc e)).
  { destruct (search_paths_ s); [|left; discriminate].
    destruct (cwd env) as [w|e]; [left; eauto | right; eauto]. }
  destruct Hcwd as [Hw | [Hsp [e Hcwd]]]; [|right; left; setup_stops].
  destruct (empty (output_path_ s)) eqn:Ho.
  { left. apply setup_passes_runs; [exact Hs|].
    split; [exact Hw | intros; congruence]. }
  assert (Hsp : (search_paths_ s = [] /\ exists w, cwd env = Val w)
                \/ exists d ds, search_paths_ s = d :: ds).
  { destruct (search_paths_ s) as [|d ds]; [left; auto | right; eauto]. }
  destruct (fs_absolute env (output_path_ s)) as [abs|e] eqn:Ha;
    [|right; left; destruct Hsp as [[Hsp [w Hcwd]] | (d & ds & Hsp)];
      setup_stops].
  destruct (fs_exists env abs) as [ex|e] eqn:He;
    [|right; left; destruct Hsp as [[Hsp [w Hcwd]] | (d & ds & Hsp)];
      setup_stops].
  assert (Hmk : (ex = false -> fs_create_directories env abs = Val tt)
                \/ (ex = false /\ exists e,
                       fs_create_directories env abs = Exc e)).
  { destruct ex; [left; discriminate|].
    destruct (fs_create_directories env abs) as [[]|e];
      [left; auto | right; eauto]. }
  destruct Hmk as [Hmk | [-> [e Hc]]];
    [|right; left; destruct Hsp as [[Hsp [w Hcwd]] | (d & ds & Hsp)];
      setup_stops].
  destruct (fs_is_directory env abs) as [[]|e] eqn:Hd.
  - left. apply setup_passes_runs; [exact Hs|].
    split; [exact Hw|]. intros _. exists abs, ex. auto.
  - right; right.
    destruct ex; [|specialize (Hmk eq_refl)];
      destruct Hsp as [[Hsp [w Hcwd]] | (d & ds & Hsp)]; setup_stops.
  - right; left.
    destruct ex; [|specialize (Hmk eq_refl)];
      destruct Hsp as [[Hsp [w Hcwd]] | (d & ds & Hsp)]; setup_stops.
Qed.

End Loop.

(** ** Whole runs *)

Lemma debug_flags_app (a b : list Event) :
  debug_flags (a ++ b) = debug_flags a ++ debug_flags b.
Proof. apply omap_app. Qed.

Lemma glob_dirs_app (a b : list Event) :
  glob_dirs (a ++ b) = glob_dirs a ++ glob_dirs b.
Proof. apply omap_app. Qed.

Lemma run_events_views (dbg : bool) (dirs : list Path) (evs : list Event) :
  Forall (run_event dbg dirs) evs ->
  Forall (eq dbg) (debug_flags evs) /\ Forall (eq dirs) (glob_dirs evs).
Proof.
  induction 1 as [|e evs He _ [IH1 IH2]]; [split; constructor|].
  destruct e; simpl in He; try contradiction; simpl;
    try (split; assumption).
  - split; [exact IH1 | constructor; [symmetry; exact He | exact IH2]].
  - split; [constructor; [symmetry; exact He | exact IH1] | exact IH2].
Qed.

(** The record of a created directory, if any, is all the setup block adds. *)
Lemma setup_events_views (pre : list Event) :
  pre = [] \/ (exists p, pre = [EvCreateDirectories p]) ->
  raised pre = [] /\ processed pre = [] /\ debug_flags pre = []
  /\ glob_dirs pre = [] /\ stdin_reads pre = [].
Proof. intros [-> | [p ->]]; repeat split; reflexivity. Qed.

Section Run.

Variable env : Env.

(** A run that is entered with a non-zero status does nothing. *)
Lemma operator_call_nonzero (s : State) :
  status_ s <> 0 -> operator_call env s = (Val (status_ s), s).
Proof.
  intros Hs. unfold operator_call. unfold bind at 1, gets at 1.
  destruct (Z.eqb_spec (status_ s) 0) as [H0 | _]; [contradiction|].
  reflexivity.
Qed.

(** The state and the events of the job loop of a run that gets through its
    setup block. *)
Lemma runs_loop (s : State) :
  runs env s ->
  exists (s1 : State) (pre evs : list Event),
    let sF := snd (operator_call env s) in
    fst (operator_call env s) = Val (status_ sF)
    /\ jobs_ s1 = jobs_ s /\ status_ s1 = status_ s
    /\ debug_mode_ s1 = debug_mode_ s
    /\ stdin_input s1 = stdin_input s
    /\ (pre = [] \/ exists p, pre = [EvCreateDirectories p])
    /\ match search_paths_ s with
       | [] => exists w, cwd env = Val w /\ search_paths_ s1 = [w]
       | _ :: _ => search_paths_ s1 = search_paths_ s
       end
    /\ trace sF = trace s ++ pre ++ evs
    /\ Forall (run_event (debug_mode_ s1) (search_paths_ s1)) evs
    /\ processed evs = declared <$> jobs_ s
    /\ declared <$> jobs_ sF = declared <$> jobs_ s
    /\ ((forall j, j ∈ jobs_ s -> console_by_default j) ->
        dest_type <$> jobs_ sF = dest_type <$> jobs_ s)
    /\ (calm env -> status_ sF = fold_left Z.max (raised evs) (status_ s))
    /\ ((exists d, process_stdin env = Val d) ->
        (length (stdin_reads evs) <= 1)%nat).
Proof.
  intros (s1 & pre & Hop & J1 & St1 & D1 & I1 & T1 & Hpre & Hsp).
  destruct (job_loop env (length (jobs_ s1)) 0 s1 (le_n _))
    as (sF & evs & Hrun & T & F & Pr & D & P & O & Dc & _ & Dt & St & _ & Rd).
  assert (HsF : loop_end env s1 = sF) by (unfold loop_end; rewrite Hrun;
                                          reflexivity).
  rewrite HsF in Hop. rewrite Hop. simpl.
  exists s1, pre, evs.
  repeat (split; [first [ reflexivity | assumption ]|]).
  split; [rewrite T, T1, <- List.app_assoc; reflexivity|].
  split; [exact F|].
  split.
  { rewrite Pr, J1. simpl. rewrite drop_0.
    apply take_ge. rewrite length_fmap, <- J1. lia. }
  split; [rewrite Dc, J1; reflexivity|].
  split.
  { intros Hc. rewrite <- J1. apply Dt. intros k j _ Hk.
    apply Hc. rewrite <- J1. eapply list_elem_of_lookup_2. exact Hk. }
  split; [intros Hc; rewrite (St Hc), St1; reflexivity | exact Rd].
Qed.

(** Everything the later statements need to know about one call of
    [operator()], in terms of the events [new] it adds to the trace. *)
Lemma run_views (s : State) :
  exists new : list Event,
    let sF := snd (operator_call env s) in
    trace sF = trace s ++ new
    /\ Forall (eq (debug_mode_ s)) (debug_flags new)
    /\ Forall (eq (effective_dirs env s)) (glob_dirs new)
    /\ (processed new = [] \/ processed new = declared <$> jobs_ s)
    /\ (status_ s = 0 -> setup_passes env s ->
        processed new = declared <$> jobs_ s)
    /\ ((exists d, process_stdin env = Val d) ->
        (length (stdin_reads new) <= 1)%nat)
    /\ declared <$> jobs_ sF = declared <$> jobs_ s
    /\ ((forall j, j ∈ jobs_ s -> console_by_default j) ->
        dest_type <$> jobs_ sF = dest_type <$> jobs_ s)
    /\ (calm env -> status_ s = 0 ->
        fst (operator_call env s) = Val (max_severity (raised new))).
Proof.
  assert (Hruns : runs env s ->
            exists new : list Event,
              let sF := snd (operator_call env s) in
              trace sF = trace s ++ new
              /\ Forall (eq (debug_mode_ s)) (debug_flags new)
              /\ Forall (eq (effective_dirs env s)) (glob_dirs new)
              /\ processed new = declared <$> jobs_ s
              /\ ((exists d, process_stdin env = Val d) ->
                  (length (stdin_reads new) <= 1)%nat)
              /\ declared <$> jobs_ sF = declared <$> jobs_ s
              /\ ((forall j, j ∈ jobs_ s -> console_by_default j) ->
                  dest_type <$> jobs_ sF = dest_type <$> jobs_ s)
              /\ (calm env -> status_ s = 0 ->
                  fst (operator_call env s)
                  = Val (max_severity (raised new)))).
  { intros Hr.
    destruct (runs_loop s Hr)
      as (s1 & pre & evs & Hfst & J1 & St1 & D1 & I1 & Hpre & Hsp & T & F
          & Pr & Dc & Dt & St & Rd).
    destruct (setup_events_views pre Hpre) as (Vr & Vp & Vd & Vg & Vs).
    destruct (run_events_views _ _ evs F) as [Fd Fg].
    exists (pre ++ evs). simpl in *.
    split; [exact T|].
    split; [rewrite debug_flags_app, Vd, <- D1; exact Fd|].
    split.
    { rewrite glob_dirs_app, Vg. simpl.
      replace (effective_dirs env s) with (search_paths_ s1); [exact Fg|].
      unfold effective_dirs. destruct (search_paths_ s).
      - destruct Hsp as (w & -> & ->). reflexivity.
      - exact Hsp. }
    split; [rewrite processed_app, Vp; exact Pr|].
    split; [rewrite stdin_reads_app, Vs; exact Rd|].
    split; [exact Dc|]. split; [exact Dt|].
    intros Hc Hs. rewrite Hfst, (St Hc), Hs, raised_app, Vr. simpl.
    rewrite fold_left_max_severity. reflexivity. }
  destruct (Z.eq_dec (status_ s) 0) as [Hs | Hs].
  - destruct (setup_cases env s Hs) as [Hr | Hst].
    + destruct (Hruns Hr) as (new & T & Fd & Fg & Pr & Rd & Dc & Dt & St).
      exists new. repeat split; try assumption; auto.
    + assert (Hst' : exists c, (c = 1 \/ c = 5) /\ stops env s c).
      { destruct Hst as [H | H]; eauto. }
      destruct Hst' as (c & Hc & s' & pre & Hop & Hst' & Hj & T & Hpre).
      destruct (setup_events_views pre Hpre) as (Vr & Vp & Vd & Vg & Vs).
      exists (pre ++ [EvRaise c]). rewrite Hop. simpl.
      split; [exact T|].
      split; [rewrite debug_flags_app, Vd; constructor|].
      split; [rewrite glob_dirs_app, Vg; constructor|].
      split; [left; rewrite processed_app, Vp; reflexivity|].
      split.
      { intros _ Hp.
        destruct (Hruns (setup_passes_runs env s Hs Hp))
          as (new & T' & _ & _ & Pr & _).
        rewrite Hop in T'. simpl in T'. rewrite T in T'.
        apply app_inv_head in T'. rewrite T'. exact Pr. }
      split; [intros _; rewrite stdin_reads_app, Vs; simpl; lia|].
      split; [rewrite Hj; reflexivity|].
      split; [intros _; rewrite Hj; reflexivity|].
      intros _ _. rewrite raised_app, Vr. simpl.
      destruct Hc as [-> | ->]; reflexivity.
  - exists []. rewrite (operator_call_nonzero s Hs). simpl.
    rewrite List.app_nil_r.
    repeat split; try reflexivity; try constructor; auto; try lia;
      intros; contradiction.
Qed.

End Run.

(** ** What the constructor hands to the run *)

Section Constructed.

Variable env : Env.

(** The trace the constructor leaves holds its own raise and the help or
    version output only, and its raise is what the status says. *)
Lemma ctor_views (args : list Arg) :
  let t := trace (BltcApp env args) in
  processed t = [] /\ debug_flags t = [] /\ glob_dirs t = []
  /\ stdin_reads t = []
  /\ status_ (BltcApp env args) = max_severity (raised t)
  /\ (status_ (BltcApp env args) = 0 -> raised t = []).
Proof.
  remember (BltcApp env args) as s eqn:Es. simpl.
  unfold BltcApp, BltcApp_body, try_catch, bind at 1 in Es.
  destruct (proc_call_frame env args initial_cli initial_state)
    as (Hst & Ht & _).
  destruct (proc_call env args initial_cli initial_state) as [[c|e] s0];
    simpl in Hst, Ht.
  - unfold_monad. simpl in Es.
    repeat case_match; simplify_eq; simpl; rewrite ?Ht, ?Hst; simpl;
      repeat split; try reflexivity; intros; discriminate.
  - destruct e; subst s; simpl; rewrite Ht; simpl;
      repeat split; try reflexivity; intros; discriminate.
Qed.

(** The members the handlers set are not touched by the rest of the
    constructor. *)
Lemma BltcApp_members (args : list Arg) :
  debug_mode_ (BltcApp env args)
  = debug_mode_ (snd (proc_call env args initial_cli initial_state))
  /\ search_paths_ (BltcApp env args)
     = search_paths_ (snd (proc_call env args initial_cli initial_state)).
Proof.
  remember (BltcApp env args) as s eqn:Es.
  unfold BltcApp, BltcApp_body, try_catch, bind at 1 in Es.
  destruct (proc_call env args initial_cli initial_state) as [[c|e] s0].
  - unfold_monad. simpl in Es.
    repeat case_match; simplify_eq; simpl; split; reflexivity.
  - destruct e; subst s; split; reflexivity.
Qed.

Lemma proc_call_debug (args : list Arg) (c0 : Cli) (s0 : State) :
  (debug_mode_ s0 = true ->
   debug_mode_ (snd (proc_call env args c0 s0)) = true)
  /\ (forall c, fst (proc_call env args c0 s0) = Val c ->
                In opt_debug args ->
                debug_mode_ (snd (proc_call env args c0 s0)) = true)
  /\ (~ In opt_debug args ->
      debug_mode_ (snd (proc_call env args c0 s0)) = debug_mode_ s0).
Proof.
  revert c0 s0. induction args as [|a args IH]; intros c0 s0.
  - simpl. repeat split; auto; intros c _ [].
  - simpl. unfold bind.
    destruct (handle env a c0 s0) as [[c1|e] s1] eqn:Ha.
    + destruct (IH c1 s1) as (I1 & I2 & I3).
      assert (Hd : (debug_mode_ s0 = true -> debug_mode_ s1 = true)
                   /\ (a = opt_debug -> debug_mode_ s1 = true)
                   /\ (a <> opt_debug -> debug_mode_ s1 = debug_mode_ s0)).
      { destruct a; simpl in Ha; unfold_monad; simpl in Ha;
          try case_match; simplify_eq; simpl;
          repeat split; auto; try discriminate; intros; congruence. }
      destruct Hd as (D1 & D2 & D3).
      split; [intros H; apply I1, D1, H|].
      split.
      * intros c Hc [-> | Hin]; [apply I1, D2; reflexivity|].
        apply (I2 c Hc Hin).
      * intros Hn. rewrite I3 by tauto. apply D3. intros ->. tauto.
    + simpl.
      assert (Hd : debug_mode_ s1 = debug_mode_ s0 /\ a <> opt_debug).
      { destruct a; simpl in Ha; unfold_monad; simpl in Ha;
          try case_match; simplify_eq; simpl; split; auto; discriminate. }
      destruct Hd as [D1 D2].
      split; [congruence|]. split; [discriminate|]. intros _. exact D1.
Qed.

Lemma proc_call_search_paths (args : list Arg) (c0 c : Cli) (s0 : State) :
  fst (proc_call env args c0 s0) = Val c ->
  search_paths_ (snd (proc_call env args c0 s0))
  = fold_left (fun dirs a => match a with
                             | opt_input_dir str =>
                                 parse_multi_path env str dirs
                             | _ => dirs
                             end) args (search_paths_ s0).
Proof.
  revert c0 s0. induction args as [|a args IH]; intros c0 s0 H;
    [reflexivity|].
  simpl in *. unfold bind in *.
  destruct (handle env a c0 s0) as [[c1|e] s1] eqn:Ha; [|discriminate H].
  rewrite (IH c1 s1 H). f_equal.
  destruct a; simpl in Ha; unfold_monad; simpl in Ha;
    try case_match; simplify_eq; reflexivity.
Qed.

End Constructed.

(** ** Properties of whole runs *)

Section Runs.

Variable env : Env.

(** X6: when no exception reaches a catch clause of [process_] (the
    transform keeps to its contract; the existence test, the glob and the
    capture of the standard input do not throw), the exit status of the
    program is the highest severity raised during the run, constructor and
    setup included. *)
Theorem X6_exit_status_is_highest_raised (args : list Arg) :
  calm env ->
  fst (bltc env args)
  = Val (max_severity (raised (trace (snd (bltc env args))))).
Proof.
  intros Hc. unfold bltc.
  destruct (ctor_views env args) as (_ & _ & _ & _ & Hst & H0).
  destruct (Z.eq_dec (status_ (BltcApp env args)) 0) as [Hs | Hs].
  - destruct (run_views env (BltcApp env args))
      as (new & T & _ & _ & _ & _ & _ & _ & _ & Hx).
    simpl in T. rewrite T, raised_app, (H0 Hs). simpl.
    apply Hx; assumption.
  - rewrite (operator_call_nonzero env _ Hs). simpl. rewrite Hst.
    reflexivity.
Qed.

(** X7: a run entered with status 0 whose setup block reaches its end
    processes every job of the list, in the order of the list, whatever
    happens to the individual jobs. *)
Theorem X7_every_job_is_processed (s : State) :
  status_ s = 0 ->
  setup_passes env s ->
  processed (trace (snd (operator_call env s)))
  = processed (trace s) ++ (declared <$> jobs_ s).
Proof.
  intros Hs Hp.
  destruct (run_views env s) as (new & T & _ & _ & _ & Pr & _).
  simpl in T. rewrite T, processed_app, (Pr Hs Hp). reflexivity.
Qed.

(** X8: [operator()] never stops in the middle of the job list: it processes
    either no job at all or every job, in order. *)
Theorem X8_no_job_or_every_job (s : State) :
  processed (trace (snd (operator_call env s))) = processed (trace s)
  \/ processed (trace (snd (operator_call env s)))
     = processed (trace s) ++ (declared <$> jobs_ s).
Proof.
  destruct (run_views env s) as (new & T & _ & _ & [Pr | Pr] & _);
    simpl in T; rewrite T, processed_app, Pr; [left | right];
    rewrite ?List.app_nil_r; reflexivity.
Qed.

(** X9: a run changes neither the number of jobs nor any job's source, source
    kind or destination kind: of the jobs the constructor formed, only the
    destination token may differ afterwards. *)
Theorem X9_run_keeps_source_and_kinds (args : list Arg) :
  declared <$> jobs_ (snd (bltc env args))
  = declared <$> jobs_ (BltcApp env args)
  /\ dest_type <$> jobs_ (snd (bltc env args))
     = dest_type <$> jobs_ (BltcApp env args)
  /\ length (jobs_ (snd (bltc env args))) = length (jobs_ (BltcApp env args)).
Proof.
  unfold bltc.
  destruct (run_views env (BltcApp env args))
    as (new & _ & _ & _ & _ & _ & _ & Dc & Dt & _).
  simpl in Dc, Dt.
  split; [exact Dc|]. split.
  - apply Dt. apply Forall_forall. apply formed_jobs_console_by_default.
  - rewrite <- (length_fmap declared), Dc. apply length_fmap.
Qed.

(** X10: the debug flag applies to all inputs, wherever [--debug] stands on
    an accepted command line: with it every transform of the run is invoked
    in debug mode, without it none is. *)
Theorem X10_debug_applies_to_every_transform (args : list Arg) (c : Cli) :
  fst (proc_call env args initial_cli initial_state) = Val c ->
  (In opt_debug args ->
   Forall (eq true) (debug_flags (trace (snd (bltc env args)))))
  /\ (~ In opt_debug args ->
      Forall (eq false) (debug_flags (trace (snd (bltc env args))))).
Proof.
  intros Hp. unfold bltc.
  destruct (ctor_views env args) as (_ & Vd & _).
  destruct (run_views env (BltcApp env args)) as (new & T & Fd & _).
  simpl in T, Vd. rewrite T, debug_flags_app, Vd. simpl.
  destruct (BltcApp_members env args) as [Hd _]. rewrite Hd in Fd.
  destruct (proc_call_debug env args initial_cli initial_state)
    as (_ & D1 & D2).
  split; intros Hin.
  - rewrite (D1 c Hp Hin) in Fd. exact Fd.
  - rewrite (D2 Hin) in Fd. exact Fd.
Qed.

(** X11: the search path applies to all inputs: on an accepted command line
    the search directories are those of all the [--input-dir] options, in
    their order, and every glob of the run is given exactly these
    directories, or the working directory alone when there is none. *)
Theorem X11_every_glob_uses_the_search_path (args : list Arg) (c : Cli) :
  fst (proc_call env args initial_cli initial_state) = Val c ->
  search_paths_ (BltcApp env args) = input_dirs env args
  /\ Forall (eq (effective_dirs env (BltcApp env args)))
            (glob_dirs (trace (snd (bltc env args)))).
Proof.
  intros Hp. unfold bltc. split.
  - destruct (BltcApp_members env args) as [_ ->].
    apply (proc_call_search_paths env args initial_cli c initial_state Hp).
  - destruct (ctor_views env args) as (_ & _ & Vg & _).
    destruct (run_views env (BltcApp env args)) as (new & T & _ & Fg & _).
    simpl in T, Vg. rewrite T, glob_dirs_app, Vg. exact Fg.
Qed.

(** X12: when the standard input can be read, a run reads it at most once,
    however many jobs take their input from it. *)
Theorem X12_standard_input_read_at_most_once (args : list Arg) (d : S) :
  process_stdin env = Val d ->
  (length (stdin_reads (trace (snd (bltc env args)))) <= 1)%nat.
Proof.
  intros Hd. unfold bltc.
  destruct (ctor_views env args) as (_ & _ & _ & Vs & _).
  destruct (run_views env (BltcApp env args))
    as (new & T & _ & _ & _ & _ & Rd & _).
  simpl in T, Vs. rewrite T, stdin_reads_app, Vs. simpl.
  apply Rd. exists d. exact Hd.
Qed.

End Runs.

(** ** Properties of single work items *)

Lemma opens_app (a b : list Event) : opens (a ++ b) = opens a ++ opens b.
Proof. apply omap_app. Qed.

Section Items.

Variable env : Env.

(** X13: the source is read before the destination is opened.  When the
    file cannot be read, [process_path_] raises 4 through the guarded raise
    and returns normally; after the record of the work item the trace holds
    nothing but that raise: no destination was opened and the transform was
    not invoked. *)
Theorem X13_read_failure_opens_nothing (path : Path) (job : JobRef) (j : Job)
    (s : State) (e : Exn) :
  job_at job s = Some j ->
  get_file_contents_string env path = Exc e ->
  let j' := planned_path_job env (output_path_ s) path j in
  let s' := snd (process_path_ env path job s) in
  fst (process_path_ env path job s) = Val tt
  /\ trace s' = trace s ++ [EvLoading path (dest_type j') (dest j'); EvRaise 4]
  /\ status_ s' = Z.max (status_ s) 4.
Proof.
  intros Hj He. unfold planned_path_job, process_path_. unfold_monad.
  destruct job as [i|]; simpl in Hj |- *.
  - rewrite Hj. simpl. destruct (dest_type j) eqn:Ht; simpl.
    + rewrite list_lookup_insert_eq by (eapply lookup_lt_Some; eauto).
      simpl. rewrite He, Ht. destruct e; simpl; repeat split;
        rewrite <- List.app_assoc; reflexivity.
    + rewrite Hj. simpl. rewrite He, Ht. destruct e; simpl; repeat split;
        rewrite <- List.app_assoc; reflexivity.
  - injection Hj as <-. destruct (dest_type (copy s)) eqn:Ht; simpl;
      rewrite He, ?Ht; destruct e; simpl; repeat split;
      rewrite <- List.app_assoc; reflexivity.
Qed.

(** X14: an input that is not a file and has no destination token is
    written to standard output.  [process_non_path_] then opens no file,
    leaves the job with destination kind Console and, the output stream
    being good, hands the data to the transform with standard output as the
    sink. *)
Theorem X14_no_destination_means_stdout (data : S) (job : JobRef) (j : Job)
    (s : State) :
  job_at job s = Some j ->
  dest j = "" ->
  let s' := snd (process_non_path_ env data job s) in
  opens (trace s') = opens (trace s)
  /\ (exists j', job_at job s' = Some j' /\ dest_type j' = dest_console)
  /\ (cout_good env = true ->
      transforms (trace s') = transforms (trace s) ++ [(data, SinkStdout)]).
Proof.
  intros Hj Hd. unfold process_non_path_, process_raw_. unfold_monad.
  assert (Hlt : forall i, job = stored i -> (i < length (jobs_ s))%nat).
  { intros i ->. simpl in Hj. eapply lookup_lt_Some; eauto. }
  destruct job as [i|]; simpl in Hj |- *.
  - specialize (Hlt i eq_refl). rewrite Hj. simpl.
    destruct (dest_type j) eqn:Ht; simpl; rewrite ?Hd; simpl;
      rewrite ?list_lookup_insert_eq by exact Hlt; rewrite ?Hj; simpl;
      rewrite ?Ht; simpl;
      repeat case_match; simpl;
      rewrite ?opens_app, ?transforms_app; simpl;
      rewrite ?List.app_nil_r;
      (split; [reflexivity|]);
      (split; [eexists; split;
               [first [apply list_lookup_insert_eq; exact Hlt | exact Hj]
               |first [reflexivity | exact Ht]]|]);
      intros Hg; first [reflexivity | congruence].
  - injection Hj as <-.
    destruct (dest_type (copy s)) eqn:Ht; simpl; rewrite ?Hd; simpl;
      rewrite ?Ht; simpl;
      repeat case_match; simpl;
      rewrite ?opens_app, ?transforms_app; simpl;
      rewrite ?List.app_nil_r;
      (split; [reflexivity|]);
      (split; [eexists; split; [reflexivity
                               |first [reflexivity | exact Ht]]|]);
      intros Hg; first [reflexivity | congruence].
Qed.

(** X15: an input that is not a file and has a destination token is written
    to that destination, and the file opened is the planned one: the token
    itself when it is absolute or no output directory is set, the output
    directory joined with the token otherwise.  The plan is also what the job
    holds afterwards. *)
Theorem X15_explicit_destination_is_opened (data : S) (job : JobRef) (j : Job)
    (s : State) :
  job_at job s = Some j ->
  dest_type j = dest_path ->
  dest j <> "" ->
  let s' := snd (process_non_path_ env data job s) in
  let planned :=
    if negb (is_absolute env (dest j)) && negb (empty (output_path_ s))
    then path_append env (output_path_ s) (dest j)
    else dest j in
  opens (trace s') = opens (trace s) ++ [planned]
  /\ job_at job s' = Some (set_dest j planned)
  /\ (is_absolute env (dest j) = true -> planned = dest j)
  /\ (output_path_ s = "" -> planned = dest j)
  /\ (is_absolute env (dest j) = false -> output_path_ s <> "" ->
      planned = path_append env (output_path_ s) (dest j)).
Proof.
  intros Hj Ht Hd s' planned.
  assert (Hplan : planned_non_path_job env (output_path_ s) j
                  = set_dest j planned).
  { unfold planned_non_path_job. rewrite Ht.
    apply empty_false in Hd. rewrite Hd. reflexivity. }
  destruct (process_non_path_ env data job s) as [r s0] eqn:H. subst s'.
  simpl.
  destruct (process_non_path__spec env data job j s r s0 Hj H)
    as (Hjobs & Hcopy & _).
  rewrite Hplan in Hjobs, Hcopy.
  split.
  { clear Hjobs Hcopy. unfold process_non_path_, process_raw_ in H.
    unfold_monad.
    assert (Hlt : forall i, job = stored i -> (i < length (jobs_ s))%nat).
    { intros i ->. simpl in Hj. eapply lookup_lt_Some; eauto. }
    apply empty_false in Hd.
    destruct job as [i|]; simpl in Hj, H.
    - specialize (Hlt i eq_refl). rewrite Hj in H. simpl in H.
      rewrite Ht, Hd in H. simpl in H.
      rewrite list_lookup_insert_eq in H by exact Hlt. simpl in H.
      rewrite Ht in H. fold planned in H.
      repeat case_match; simplify_eq; simpl;
        rewrite ?opens_app; simpl; rewrite ?List.app_nil_r; reflexivity.
    - injection Hj as <-. rewrite Ht, Hd in H. simpl in H.
      rewrite Ht in H. fold planned in H.
      repeat case_match; simplify_eq; simpl;
        rewrite ?opens_app; simpl; rewrite ?List.app_nil_r; reflexivity. }
  split; [eapply job_at_written; eassumption|].
  subst planned. split; [intros ->; reflexivity|].
  split.
  - intros ->. simpl. rewrite andb_false_r. reflexivity.
  - intros -> Ho. apply empty_false in Ho. rewrite Ho. reflexivity.
Qed.

(** X16: a file sent to standard output with [--stdout] is planned no
    destination: [process_path_] leaves the job as it is and opens no file,
    and, the file being readable and the output stream good, hands the file's
    contents to the transform with standard output as the sink. *)
Theorem X16_stdout_kind_opens_nothing (path : Path) (job : JobRef) (j : Job)
    (s : State) :
  job_at job s = Some j ->
  dest_type j = dest_console ->
  let s' := snd (process_path_ env path job s) in
  opens (trace s') = opens (trace s)
  /\ job_at job s' = Some j
  /\ (forall data,
        get_file_contents_string env path = Val data ->
        cout_good env = true ->
        transforms (trace s') = transforms (trace s) ++ [(data, SinkStdout)]).
Proof.
  intros Hj Ht. unfold process_path_, process_raw_. unfold_monad.
  destruct job as [i|]; simpl in Hj |- *.
  - rewrite Hj. simpl. rewrite Ht. simpl. rewrite Hj. simpl.
    rewrite ?Ht.
    repeat case_match; simplify_eq; simpl in *;
      rewrite ?Hj in *; simpl in *; rewrite ?Ht in *; try discriminate;
      rewrite ?opens_app, ?transforms_app; simpl;
      rewrite ?List.app_nil_r;
      repeat split; try reflexivity; try assumption;
      intros; simplify_eq; try reflexivity; try congruence.
  - injection Hj as <-. rewrite Ht. simpl. rewrite ?Ht.
    repeat case_match; simplify_eq; simpl in *;
      rewrite ?Ht in *; try discriminate;
      rewrite ?opens_app, ?transforms_app; simpl;
      rewrite ?List.app_nil_r;
      repeat split; try reflexivity; try assumption;
      intros; simplify_eq; try reflexivity; try congruence.
Qed.

Lemma non_path_transforms (data : S) (job : JobRef) (s : State)
    (r : Res unit) (s' : State) :
  process_non_path_ env data job s = (r, s') ->
  exists ts, transforms (trace s') = transforms (trace s) ++ ts
             /\ Forall (fun t => fst t = data) ts.
Proof.
  intros H. unfold process_non_path_, process_raw_ in H. unfold_monad.
  simpl in H.
  destruct job as [i|]; simpl in H;
    repeat case_match; simplify_eq; simpl;
    rewrite ?transforms_app; simpl; rewrite <- ?List.app_assoc; simpl;
    eexists; (split; [first [reflexivity | symmetry; apply List.app_nil_r]|]);
    repeat constructor.
Qed.

(** X17: a job that takes its input from the standard input works on the
    captured input: whether the input was captured by an earlier job or is
    captured by this one, the transform, if it is reached, is handed exactly
    the captured data, which stays captured afterwards; and an input that
    was already captured is not read again. *)
Theorem X17_console_job_uses_the_captured_input (i : nat) (j : Job)
    (s : State) (d : S) :
  jobs_ s !! i = Some j ->
  source_type j = source_console ->
  stdin_input s = Some d
  \/ (stdin_input s = None /\ process_stdin env = Val d) ->
  let s' := snd (process_ env (stored i) s) in
  stdin_input s' = Some d
  /\ (exists ts, transforms (trace s') = transforms (trace s) ++ ts
                 /\ Forall (fun t => fst t = d) ts)
  /\ (stdin_input s = Some d ->
      stdin_reads (trace s') = stdin_reads (trace s)).
Proof.
  intros Hj Ht Hin s'.
  assert (G : forall (s0 : State) (r : Res unit) (sm : State),
             jobs_ s0 = jobs_ s ->
             stdin_input s0 = Some d ->
             transforms (trace s0) = transforms (trace s) ->
             process_non_path_ env d (stored i) s0 = (r, sm) ->
             let s' := snd (match r with
                            | Val a => (Val a, sm)
                            | Exc e =>
                                match e with
                                | filesystem_error => status_assign 4
                                | Fatal => status_assign 1
                                | std_exception => status_assign 1
                                end sm
                            end) in
             stdin_input s' = Some d
             /\ (exists ts, transforms (trace s') = transforms (trace s) ++ ts
                            /\ Forall (fun t => fst t = d) ts)
             /\ stdin_reads (trace s') = stdin_reads (trace s0)).
  { intros s0 r sm J0 I0 T0 H.
    assert (Hj0 : job_at (stored i) s0 = Some j)
      by (simpl; rewrite J0; exact Hj).
    destruct (process_non_path__spec env d (stored i) j s0 r sm Hj0 H)
      as (_ & _ & (_ & _ & _ & Hi) & _).
    destruct (non_path_transforms d (stored i) s0 r sm H) as (ts & Hts & Fts).
    destruct (process_non_path__effects env d (stored i) s0 r sm H)
      as (evs & (Htr & _) & Fev).
    destruct (job_events_views _ [] evs (Forall_item_job _ _ _ Fev))
      as [_ Hrd].
    destruct r as [[]|[]]; simpl;
      rewrite ?transforms_app, ?stdin_reads_app; simpl;
      rewrite ?List.app_nil_r;
      (split; [congruence|]);
      (split; [exists ts; split; [congruence | exact Fts]|]);
      rewrite Htr, stdin_reads_app, Hrd; apply List.app_nil_r. }
  subst s'. destruct (process_ env (stored i) s) as [r0 sF] eqn:Hp. simpl.
  unfold process_, try_catch in Hp.
  unfold bind at 1, read_job, gets in Hp. simpl in Hp. rewrite Hj in Hp.
  simpl in Hp. rewrite Ht in Hp.
  unfold bind at 1, emit at 1, modify in Hp. unfold bind at 1, get_stdin in Hp.
  unfold bind at 1, gets in Hp. simpl in Hp.
  destruct Hin as [Hin | [Hin Hd]]; rewrite Hin in Hp.
  - unfold ret at 1 in Hp.
    destruct (process_non_path_ env d (stored i) _) as [r sm] eqn:H.
    apply G in H; try reflexivity; [|exact Hin|].
    + apply (f_equal snd) in Hp. simpl in Hp. rewrite Hp in H.
      destruct H as (H1 & H2 & H3).
      split; [exact H1|]. split; [exact H2|]. intros _. rewrite H3.
      simpl. rewrite stdin_reads_app. apply List.app_nil_r.
    + simpl. rewrite transforms_app. apply List.app_nil_r.
  - unfold bind at 1, emit at 1, modify in Hp. unfold bind at 1, lift in Hp.
    rewrite Hd in Hp. unfold bind at 1, modify, ret in Hp.
    destruct (process_non_path_ env d (stored i) _) as [r sm] eqn:H.
    apply G in H; try reflexivity.
    + apply (f_equal snd) in Hp. simpl in Hp. rewrite Hp in H.
      destruct H as (H1 & H2 & _).
      split; [exact H1|]. split; [exact H2|]. intros Hs. congruence.
    + simpl. rewrite !transforms_app. simpl. rewrite !List.app_nil_r.
      reflexivity.
Qed.

End Items.

(** ** The properties above on explicit inputs *)

Lemma disk_env_calm (d : Disk) (input : S) :
  disk_stdin d = Val input -> calm (disk_env d).
Proof.
  intros Hin. split; [apply disk_env_contract|].
  split; [intros p e; discriminate|].
  split; [intros pat dirs e; discriminate|].
  intros e. simpl. rewrite Hin. discriminate.
Qed.

Lemma X1_jobs_follow_the_command_line_witness :
  declared <$> jobs_ (BltcApp (disk_env disk_examples)
                        [opt_output "asdf"; opt_stdin; opt_output "bar_out";
                         positional "bar.blt"])
  = [("", source_console); ("bar.blt", source_path)].
Proof.
  exact (X1_jobs_follow_the_command_line (disk_env disk_examples)
           [opt_output "asdf"; opt_stdin; opt_output "bar_out";
            positional "bar.blt"] initial_cli eq_refl).
Defined.

Lemma X2_binding_affects_one_input_witness :
  let env := disk_env disk_examples in
  let c := mkCli "asdf" dest_path false false "" false in
  let args := opt_input "t" :: [opt_debug; opt_input_dir "src"]
              ++ [positional "b.blt"] in
  exists j, last (jobs_ (snd (proc_call env args c initial_state))) = Some j
            /\ dest j = "" /\ dest_type j = dest_path.
Proof.
  intros env c args.
  apply (X2_binding_affects_one_input env (opt_input "t")
           (positional "b.blt") [opt_debug; opt_input_dir "src"] c initial_cli
           initial_state (snd (proc_call env args c initial_state))).
  - eexists. reflexivity.
  - repeat constructor.
  - eexists. reflexivity.
  - reflexivity.
Defined.

Lemma X4_rejected_command_line_exits_2_witness :
  let env := disk_env disk_examples in
  let args := [positional "foo.blt"; rejected] in
  fst (bltc env args) = Val 2
  /\ trace (snd (bltc env args)) = [EvRaise 2]
  /\ jobs_ (snd (bltc env args)) = jobs_ (BltcApp env args).
Proof.
  exact (X4_rejected_command_line_exits_2 (disk_env disk_examples)
           [positional "foo.blt"; rejected] std_exception eq_refl).
Defined.

Lemma X5_second_output_dir_is_rejected_witness :
  fst (bltc (disk_env disk_examples)
            ([opt_output_dir "out"]
             ++ opt_output_dir "other" :: [positional "foo.blt"]))
  = Val 2.
Proof.
  exact (X5_second_output_dir_is_rejected (disk_env disk_examples)
           [opt_output_dir "out"] [positional "foo.blt"] "other" initial_cli
           (with_output_path "out" initial_state) eq_refl eq_refl).
Defined.

Lemma X6_exit_status_is_highest_raised_witness :
  fst (bltc (disk_env disk_two_templates) [positional "none*"; opt_input "t"])
  = Val 3.
Proof.
  exact (X6_exit_status_is_highest_raised (disk_env disk_two_templates)
           [positional "none*"; opt_input "t"]
           (disk_env_calm disk_two_templates "" eq_refl)).
Defined.

Lemma X7_every_job_is_processed_witness :
  let env := disk_env disk_two_templates in
  let s := BltcApp env [positional "none*"; opt_input "t"] in
  processed (trace (snd (operator_call env s)))
  = [("none*", source_path); ("t", source_raw)].
Proof.
  intros env s.
  apply (X7_every_job_is_processed env s eq_refl).
  split.
  - intros _. exists "/work". reflexivity.
  - intros H. discriminate H.
Defined.

Lemma X10_debug_applies_to_every_transform_witness :
  Forall (eq true)
    (debug_flags (trace (snd (bltc (disk_env disk_two_templates)
                                   [positional "*.blt"; opt_debug])))).
Proof.
  apply (proj1 (X10_debug_applies_to_every_transform
                  (disk_env disk_two_templates)
                  [positional "*.blt"; opt_debug] initial_cli eq_refl)).
  right. left. reflexivity.
Defined.

Lemma X11_every_glob_uses_the_search_path_witness :
  let env := disk_env disk_two_templates in
  let args := [positional "*.blt"; opt_input_dir "/lib"; positional "none*";
               opt_input_dir "/src"] in
  search_paths_ (BltcApp env args) = ["/lib"; "/src"]
  /\ Forall (eq ["/lib"; "/src"]) (glob_dirs (trace (snd (bltc env args)))).
Proof.
  exact (X11_every_glob_uses_the_search_path (disk_env disk_two_templates)
           [positional "*.blt"; opt_input_dir "/lib"; positional "none*";
            opt_input_dir "/src"] initial_cli eq_refl).
Defined.

Lemma X12_standard_input_read_at_most_once_witness :
  (length (stdin_reads
             (trace (snd (bltc (disk_env disk_piped_input)
                               [opt_stdin; opt_output "x.lua"; opt_stdin;
                                opt_stdin])))) <= 1)%nat.
Proof.
  exact (X12_standard_input_read_at_most_once (disk_env disk_piped_input)
           [opt_stdin; opt_output "x.lua"; opt_stdin; opt_stdin] "piped"
           eq_refl).
Defined.

Lemma X13_read_failure_opens_nothing_witness :
  let env := disk_env disk_examples in
  let j := mkJob "gone.blt" "" source_path dest_path in
  let s := with_status 3 (with_jobs [j] initial_state) in
  fst (process_path_ env "gone.blt" (stored 0) s) = Val tt
  /\ trace (snd (process_path_ env "gone.blt" (stored 0) s))
     = [EvLoading "gone.blt" dest_path "gone.lua"; EvRaise 4]
  /\ status_ (snd (process_path_ env "gone.blt" (stored 0) s)) = 4.
Proof.
  intros env j s.
  exact (X13_read_failure_opens_nothing env "gone.blt" (stored 0) j s
           filesystem_error eq_refl eq_refl).
Defined.

Lemma X14_no_destination_means_stdout_witness :
  let env := disk_env disk_examples in
  let j := mkJob "t" "" source_raw dest_console in
  let s := with_jobs [j] initial_state in
  let s' := snd (process_non_path_ env "t" (stored 0) s) in
  opens (trace s') = []
  /\ (exists j', job_at (stored 0) s' = Some j' /\ dest_type j' = dest_console)
  /\ (cout_good env = true -> transforms (trace s') = [("t", SinkStdout)]).
Proof.
  intros env j s.
  exact (X14_no_destination_means_stdout env "t" (stored 0) j s
           eq_refl eq_refl).
Defined.

Lemma X15_explicit_destination_is_opened_witness :
  let env := disk_env disk_examples in
  let j := mkJob "t" "x.lua" source_raw dest_path in
  let s := with_output_path "out/" (with_jobs [j] initial_state) in
  let s' := snd (process_non_path_ env "t" (stored 0) s) in
  opens (trace s') = ["out/x.lua"]
  /\ job_at (stored 0) s' = Some (set_dest j "out/x.lua").
Proof.
  intros env j s s'.
  assert (Hne : dest j <> "") by discriminate.
  destruct (X15_explicit_destination_is_opened env "t" (stored 0) j s
              eq_refl eq_refl Hne) as (Ho & Hj & _).
  split; [exact Ho | exact Hj].
Defined.

Lemma X16_stdout_kind_opens_nothing_witness :
  let env := disk_env disk_examples in
  let j := mkJob "foo.blt" "" source_path dest_console in
  let s := with_jobs [j] initial_state in
  let s' := snd (process_path_ env "foo.blt" (stored 0) s) in
  opens (trace s') = []
  /\ job_at (stored 0) s' = Some j
  /\ transforms (trace s') = [("F", SinkStdout)].
Proof.
  intros env j s s'.
  destruct (X16_stdout_kind_opens_nothing env "foo.blt" (stored 0) j s
              eq_refl eq_refl) as (Ho & Hj & Ht).
  split; [exact Ho|]. split; [exact Hj|].
  exact (Ht "F" eq_refl eq_refl).
Defined.

Lemma X17_console_job_uses_the_captured_input_witness :
  let env := disk_env disk_piped_input in
  let s := BltcApp env [opt_stdin] in
  let s' := snd (process_ env (stored 0) s) in
  stdin_input s' = Some "piped"
  /\ exists ts, transforms (trace s') = transforms (trace s) ++ ts
                /\ Forall (fun t => fst t = "piped") ts.
Proof.
  intros env s s'.
  destruct (X17_console_job_uses_the_captured_input env 0
              (mkJob "" "" source_console dest_console) s "piped"
              eq_refl eq_refl (or_intror (conj eq_refl eq_refl)))
    as (Hi & Ht & _).
  split; [exact Hi | exact Ht].
Defined.

(** ** The stored job during a whole run *)

Section StoredSpec.

Variable env : Env.

(** An input handler forms the job from the values bound at that moment. *)
Lemma handle_forms_job (a : Arg) (c : Cli) (s : State) (src : S)
    (k : SourceType) :
  input_of a = Some (src, k) ->
  jobs_ (snd (handle env a c s))
  = jobs_ s
    ++ [mkJob src (cli_dest c) k
              (match k with
               | source_path => cli_dest_type c
               | _ => if empty (cli_dest c) then dest_console
                      else cli_dest_type c
               end)].
Proof.
  intros Ha. destruct a; simpl in Ha; try discriminate Ha;
    injection Ha as <- <-; reflexivity.
Qed.

(** Planning a path job changes nothing but the destination token. *)
Lemma planned_path_job_sets_dest (o p : Path) (j : Job) :
  planned_path_job env o p j = set_dest j (dest (planned_path_job env o p j)).
Proof.
  unfold planned_path_job. destruct j as [src d st dt]. simpl.
  destruct dt; reflexivity.
Qed.

(** Neither does planning a job that is not a file, when the job is one the
    constructor can form. *)
Lemma planned_non_path_job_sets_dest (o : Path) (j : Job) :
  console_by_default j ->
  source_type j <> source_path ->
  planned_non_path_job env o j
  = set_dest j (dest (planned_non_path_job env o j)).
Proof.
  intros Hc Hs. unfold planned_non_path_job.
  destruct (dest_type j) eqn:Ht.
  - destruct (empty (dest j)) eqn:He.
    + apply empty_true in He. rewrite (Hc Hs He) in Ht. discriminate Ht.
    + destruct j; reflexivity.
  - destruct j; reflexivity.
Qed.

End StoredSpec.

(** C2, amended.  The destination token and its kind are captured by value
    when the job is formed: an input handler appends a job holding the token
    and the kind bound at that moment (kind Console for a raw or console
    input with no token), later handler calls only append to the job list,
    and every job so formed that is not a file and has no token has kind
    Console.  The destination kind, the source and the source kind of the
    stored jobs are the same after a whole run as when the jobs were formed.
    Only the destination token is not immutable.  A path job that goes
    through the glob is planned on a copy per match, and the job list stays
    as it is; for a path job on the absolute-path fast path, for a raw job
    and for a console job whose input could be captured, planning is done in
    place, and the stored job becomes the same job with the planned
    destination as its token. *)
Theorem C2_stored_spec_amended (env : Env) :
  (forall (a : Arg) (c : Cli) (s : State) (src : S) (k : SourceType),
      input_of a = Some (src, k) ->
      jobs_ (snd (handle env a c s))
      = jobs_ s
        ++ [mkJob src (cli_dest c) k
                  (match k with
                   | source_path => cli_dest_type c
                   | _ => if empty (cli_dest c) then dest_console
                          else cli_dest_type c
                   end)])
  /\
  (forall (args : list Arg) (c : Cli) (s : State),
      jobs_ s `prefix_of` jobs_ (snd (proc_call env args c s)))
  /\
  (forall args : list Arg,
      Forall console_by_default (jobs_ (BltcApp env args)))
  /\
  (forall args : list Arg,
      dest_type <$> jobs_ (snd (bltc env args))
      = dest_type <$> jobs_ (BltcApp env args)
      /\ declared <$> jobs_ (snd (bltc env args))
         = declared <$> jobs_ (BltcApp env args))
  /\
  (forall (i : nat) (j : Job) (s : State),
      jobs_ s !! i = Some j ->
      source_type j = source_path ->
      ~ (is_absolute env (parse_path env (source j)) = true
         /\ fs_exists env (parse_path env (source j)) = Val true) ->
      jobs_ (snd (process_ env (stored i) s)) = jobs_ s)
  /\
  (forall (i : nat) (j : Job) (s : State),
      jobs_ s !! i = Some j ->
      source_type j = source_path ->
      is_absolute env (parse_path env (source j)) = true ->
      fs_exists env (parse_path env (source j)) = Val true ->
      jobs_ (snd (process_ env (stored i) s))
      = <[i := set_dest j
                 (dest (planned_path_job env (output_path_ s)
                                         (parse_path env (source j)) j))]>
          (jobs_ s))
  /\
  (forall (i : nat) (j : Job) (s : State),
      jobs_ s !! i = Some j ->
      console_by_default j ->
      source_type j = source_raw
      \/ (source_type j = source_console
          /\ (stdin_input s = None ->
              exists data, process_stdin env = Val data)) ->
      jobs_ (snd (process_ env (stored i) s))
      = <[i := set_dest j
                 (dest (planned_non_path_job env (output_path_ s) j))]>
          (jobs_ s)).
Proof.
  split; [apply handle_forms_job|].
  split; [apply proc_call_extends_jobs|].
  split; [apply formed_jobs_console_by_default|].
  split.
  { intros args. unfold bltc.
    destruct (run_views env (BltcApp env args))
      as (new & _ & _ & _ & _ & _ & _ & Dc & Dt & _).
    simpl in Dc, Dt. split; [|exact Dc].
    apply Dt. apply Forall_forall. apply formed_jobs_console_by_default. }
  split; [apply process__expansion_keeps_jobs|].
  split.
  { intros i j s Hj Ht Ha He.
    rewrite <- planned_path_job_sets_dest.
    apply process__fast_path_writes_job; assumption. }
  intros i j s Hj Hc Hk.
  rewrite <- planned_non_path_job_sets_dest.
  - destruct Hk as [Ht | [Ht Hin]].
    + apply process__raw_writes_job; assumption.
    + apply process__console_writes_job; assumption.
  - exact Hc.
  - destruct Hk as [Ht | [Ht _]]; rewrite Ht; discriminate.
Qed.

Lemma C2_stored_spec_amended_witness :
  let env := disk_env disk_two_templates in
  let c := mkCli "x.lua" dest_path false false "" false in
  let args := [opt_output_dir "out"; opt_output "x.lua"; opt_input "t"] in
  let s1 := with_search_paths ["/work"] (BltcApp env [positional "*.blt"]) in
  let s2 := BltcApp env [positional "/work/a.blt"] in
  let s3 := with_output_path "/work/out"
              (BltcApp env [opt_output "x.lua"; opt_input "t"]) in
  jobs_ (snd (handle env (opt_input "t") c initial_state))
  = [mkJob "t" "x.lua" source_raw dest_path]
  /\ dest_type <$> jobs_ (snd (bltc env args)) = [dest_path]
  /\ jobs_ (snd (process_ env (stored 0) s1)) = jobs_ s1
  /\ jobs_ (snd (process_ env (stored 0) s2))
     = [mkJob "/work/a.blt" "/work/a.lua" source_path dest_path]
  /\ jobs_ (snd (process_ env (stored 0) s3))
     = [mkJob "t" "/work/out/x.lua" source_raw dest_path].
Proof.
  intros env c args s1 s2 s3.
  destruct (C2_stored_spec_amended env)
    as (Hform & _ & _ & Hrun & Hglob & Hfast & Hplace).
  split; [|split; [|split; [|split]]].
  - apply (Hform (opt_input "t") c initial_state "t" source_raw eq_refl).
  - apply (proj1 (Hrun args)).
  - apply (Hglob 0%nat (mkJob "*.blt" "" source_path dest_path) s1
                 eq_refl eq_refl).
    intros [Habs _]. discriminate Habs.
  - apply (Hfast 0%nat (mkJob "/work/a.blt" "" source_path dest_path) s2
                 eq_refl eq_refl eq_refl eq_refl).
  - apply (Hplace 0%nat (mkJob "t" "x.lua" source_raw dest_path) s3
                  eq_refl).
    + intros _ Hd. discriminate Hd.
    + left. reflexivity.
Defined.
